(** * PointWFI: the WFI pointing / dither helper of the romanisim notebook

    Shallow embedding of the [PointWFI] dataclass defined in the Roman I-Sim
    tutorial notebook ([class PointWFI], methods [__post_init__],
    [_update_boresight_position] and [dither]).

    Python [float] is IEEE-754 binary64, which is exactly Rocq's primitive
    [float]; every numeric attribute of the class is therefore a [float].
    The integer literals [0] that the source passes to PySIAF, and integer
    arguments such as those of the docstring example, are the floats of the
    same value.  The one law that the spec words in exact real arithmetic,
    the zero dither, is proved over the same class on the real numbers
    ([Exact]). *)

From Stdlib Require Import Reals Lra.
From Stdlib Require Import String Ascii ZArith Lia.
From Stdlib Require Import Decimal DecimalString DecimalN.
From Stdlib Require Import PrimFloat Bool List.
Import ListNotations.

Set Implicit Arguments.

(** A decimal literal denotes, as in Python, the nearest binary64 value. *)
Set Warnings "-inexact-float".

(** ** The PySIAF collaborator

    All coordinate mathematics is delegated to the external [pysiaf] package;
    none of it is implemented by the notebook.  The embedding takes the pieces
    of [pysiaf] that the class calls as an interface.  The one part of an
    aperture that the class changes is the attitude matrix installed with
    [set_attitude_matrix]; it is modelled as a field of the aperture.  The
    class never writes into a matrix it has built: every assignment binds a
    fresh result of [attitude], so the array shared between the object and
    its aperture is modelled as a value. *)

Module pysiaf.

(** A SIAF aperture: its reference point in the telescope frame
    ([V2Ref], [V3Ref], arcseconds) and the attitude matrix installed by
    [set_attitude_matrix] ([None] until one is installed). *)
Record Aperture (ndarray : Type) : Type := {
  V2Ref : float;
  V3Ref : float;
  _attitude_matrix : option ndarray
}.

(** [aperture.set_attitude_matrix(m)]: store [m] in the aperture. *)
Definition set_attitude_matrix {ndarray : Type}
    (ap : Aperture ndarray) (m : ndarray) : Aperture ndarray :=
  {| V2Ref := V2Ref ap; V3Ref := V3Ref ap; _attitude_matrix := Some m |}.

(** The functions of [pysiaf] used by the class.
    - [Siaf_Roman_WFI_CEN] is [pysiaf.Siaf('Roman')['WFI_CEN']];
    - [attitude v2 v3 ra dec pa] is [pysiaf.utils.rotations.attitude];
    - [posangle m v2 v3] is [pysiaf.utils.rotations.posangle];
    - [tel_to_sky ap v2 v3] and [idl_to_sky ap x y] are the aperture
      methods, which read the attitude matrix installed in [ap]. *)
Class Interface : Type := {
  ndarray : Type;
  Siaf_Roman_WFI_CEN : Aperture ndarray;
  attitude : float -> float -> float -> float -> float -> ndarray;
  posangle : ndarray -> float -> float -> float;
  tel_to_sky : Aperture ndarray -> float -> float -> float * float;
  idl_to_sky : Aperture ndarray -> float -> float -> float * float
}.

End pysiaf.

Import pysiaf.

(** ** Outcome of a call

    A Python call either returns or raises.  The spec names one kind of
    error, [InvalidArgument]. *)

Inductive exn : Type := InvalidArgument.

Inductive outcome (A : Type) : Type :=
| Returned (a : A)
| Raised (e : exn).

Arguments Raised {A} e.

(** ** The class *)

Section PointWFI.

Context {siaf : pysiaf.Interface}.

(** The attributes of a [PointWFI] object once [__post_init__] has run. *)
Record PointWFI : Type := {
  ra : float;
  dec : float;
  roll_angle : float;
  siaf_aperture : Aperture ndarray;
  v2_ref : float;
  v3_ref : float;
  attitude_matrix : ndarray;
  tel_ra : float;
  tel_dec : float;
  tel_roll : float
}.

(** The four attributes assigned by [_update_boresight_position]. *)
Record Boresight : Type := {
  b_tel_ra : float;
  b_tel_dec : float;
  b_attitude_matrix : ndarray;
  b_tel_roll : float
}.

(** [_update_boresight_position(self)] reads [self.siaf_aperture] and
    [self.roll_angle] and assigns [tel_ra], [tel_dec], [attitude_matrix] and
    [tel_roll], in that order; the function returns what it assigns.
<<
    boresight_sky = self.siaf_aperture.tel_to_sky(0, 0)
    self.tel_ra = boresight_sky[0]
    self.tel_dec = boresight_sky[1]
    self.attitude_matrix = attitude(0, 0, self.tel_ra, self.tel_dec, self.roll_angle)
    self.tel_roll = posangle(self.attitude_matrix, 0, 0)
>> *)
Definition _update_boresight_position
    (self_siaf_aperture : Aperture ndarray) (self_roll_angle : float)
    : Boresight :=
  let boresight_sky := tel_to_sky self_siaf_aperture 0 0 in
  let self_tel_ra := fst boresight_sky in
  let self_tel_dec := snd boresight_sky in
  let self_attitude_matrix :=
    attitude 0 0 self_tel_ra self_tel_dec self_roll_angle in
  let self_tel_roll := posangle self_attitude_matrix 0 0 in
  {| b_tel_ra := self_tel_ra;
     b_tel_dec := self_tel_dec;
     b_attitude_matrix := self_attitude_matrix;
     b_tel_roll := self_tel_roll |}.

(** [__post_init__(self)], run on an object whose dataclass fields are
    [ra], [dec] and [roll_angle].
<<
    self.siaf_aperture = pysiaf.Siaf('Roman')['WFI_CEN']
    self.v2_ref = self.siaf_aperture.V2Ref
    self.v3_ref = self.siaf_aperture.V3Ref
    self.attitude_matrix = attitude(self.v2_ref, self.v3_ref, self.ra, self.dec, self.roll_angle)
    self.siaf_aperture.set_attitude_matrix(self.attitude_matrix)
    self._update_boresight_position()
>> *)
Definition __post_init__ (self_ra self_dec self_roll_angle : float)
    : PointWFI :=
  let self_siaf_aperture := Siaf_Roman_WFI_CEN in
  let self_v2_ref := V2Ref self_siaf_aperture in
  let self_v3_ref := V3Ref self_siaf_aperture in
  let self_attitude_matrix :=
    attitude self_v2_ref self_v3_ref self_ra self_dec self_roll_angle in
  let self_siaf_aperture :=
    set_attitude_matrix self_siaf_aperture self_attitude_matrix in
  let b := _update_boresight_position self_siaf_aperture self_roll_angle in
  {| ra := self_ra;
     dec := self_dec;
     roll_angle := self_roll_angle;
     siaf_aperture := self_siaf_aperture;
     v2_ref := self_v2_ref;
     v3_ref := self_v3_ref;
     attitude_matrix := b_attitude_matrix b;
     tel_ra := b_tel_ra b;
     tel_dec := b_tel_dec b;
     tel_roll := b_tel_roll b |}.

(** The dataclass defaults: [ra: float = 80.0], [dec: float = 30.0],
    [roll_angle: float = 0.0]. *)
Definition default_ra : float := 80.
Definition default_dec : float := 30.
Definition default_roll_angle : float := 0.

Definition or_default (arg : option float) (d : float) : float :=
  match arg with
  | Some v => v
  | None => d
  end.

(** The [__init__] that [@dataclass(init=True)] generates: every argument is
    optional ([None] stands for an omitted argument); it stores the three
    fields and calls [__post_init__]. *)
Definition __init__ (ra dec roll_angle : option float) : PointWFI :=
  __post_init__ (or_default ra default_ra)
                (or_default dec default_dec)
                (or_default roll_angle default_roll_angle).

(** [dither(self, x_offset, y_offset)].
<<
    new_ra, new_dec = self.siaf_aperture.idl_to_sky(x_offset, y_offset)
    self.attitude_matrix = attitude(self.v2_ref, self.v3_ref, new_ra, new_dec, self.roll_angle)
    self.siaf_aperture.set_attitude_matrix(self.attitude_matrix)
    self._update_boresight_position()
    self.ra = new_ra
    self.dec = new_dec
>> *)
Definition dither (self : PointWFI) (x_offset y_offset : float) : PointWFI :=
  let new_sky := idl_to_sky (siaf_aperture self) x_offset y_offset in
  let new_ra := fst new_sky in
  let new_dec := snd new_sky in
  let self_attitude_matrix :=
    attitude (v2_ref self) (v3_ref self) new_ra new_dec (roll_angle self) in
  let self_siaf_aperture :=
    set_attitude_matrix (siaf_aperture self) self_attitude_matrix in
  let b := _update_boresight_position self_siaf_aperture (roll_angle self) in
  {| ra := new_ra;
     dec := new_dec;
     roll_angle := roll_angle self;
     siaf_aperture := self_siaf_aperture;
     v2_ref := v2_ref self;
     v3_ref := v3_ref self;
     attitude_matrix := b_attitude_matrix b;
     tel_ra := b_tel_ra b;
     tel_dec := b_tel_dec b;
     tel_roll := b_tel_roll b |}.

(** *** The operations of the contract

    Neither [__post_init__] nor [dither] contains a [raise], an [assert] or a
    test of its arguments, so every call returns. *)

Definition Construct (ra dec roll_angle : option float) : outcome PointWFI :=
  Returned (__init__ ra dec roll_angle).

Definition Dither (self : PointWFI) (x_offset y_offset : float)
    : outcome PointWFI :=
  Returned (dither self x_offset y_offset).

(** Reading the attributes [ra] and [dec]. *)
Definition CurrentPosition (self : PointWFI) : float * float :=
  (ra self, dec self).

(** A sequence of dither calls, applied left to right. *)
Definition dithers (self : PointWFI) (offsets : list (float * float))
    : PointWFI :=
  fold_left (fun s d => dither s (fst d) (snd d)) offsets self.

(** States reachable by a construction followed by dither calls. *)
Inductive reachable : PointWFI -> Prop :=
| reachable_init (ra dec roll_angle : option float) :
    reachable (__init__ ra dec roll_angle)
| reachable_dither (s : PointWFI) (x_offset y_offset : float) :
    reachable s -> reachable (dither s x_offset y_offset).

(** *** Predicates used by the statements *)

(** The WFI_CEN aperture with the attitude matrix anchored at the target
    [(ra, dec)]: the reference point maps to the target. *)
Definition aperture_at (ra dec roll_angle : float) : Aperture ndarray :=
  set_attitude_matrix Siaf_Roman_WFI_CEN
    (attitude (V2Ref Siaf_Roman_WFI_CEN) (V3Ref Siaf_Roman_WFI_CEN)
              ra dec roll_angle).

(** The aperture of the object carries the attitude anchored at the stored
    target position. *)
Definition aperture_consistent (s : PointWFI) : Prop :=
  v2_ref s = V2Ref Siaf_Roman_WFI_CEN /\
  v3_ref s = V3Ref Siaf_Roman_WFI_CEN /\
  siaf_aperture s = aperture_at (ra s) (dec s) (roll_angle s).

(** The boresight attributes are those derived from the aperture. *)
Definition boresight_consistent (s : PointWFI) : Prop :=
  (tel_ra s, tel_dec s) = tel_to_sky (siaf_aperture s) 0 0 /\
  attitude_matrix s = attitude 0 0 (tel_ra s) (tel_dec s) (roll_angle s) /\
  tel_roll s = posangle (attitude_matrix s) 0 0.

(** What the spec states for the [attitude_matrix] attribute. *)
Definition attitude_matrix_target_anchored (s : PointWFI) : Prop :=
  attitude_matrix s =
  attitude (v2_ref s) (v3_ref s) (ra s) (dec s) (roll_angle s).

(** Ranges and finiteness of the inputs, as the spec words them. *)
Definition dec_in_range (dec : float) : bool :=
  ((-90) <=? dec)%float && (dec <=? 90)%float.

Definition offset_finite (x_offset y_offset : float) : bool :=
  is_finite x_offset && is_finite y_offset.

(** Two sky positions agree to within [eps] degrees in each coordinate. *)
Definition close (eps : float) (p q : float * float) : bool :=
  (abs (fst p - fst q) <=? eps)%float && (abs (snd p - snd q) <=? eps)%float.

End PointWFI.

Arguments PointWFI siaf : clear implicits.

(** ** The AttitudeFrame collaborator, executable

    Modelled from the spec: the AttitudeFrame collaborator of the external
    interfaces ([attitude], [idl_to_sky], [posangle]) is the [pysiaf]
    package, whose code is not among the sources.  The module below
    implements it in binary64 the way the spec describes it: [attitude]
    builds the rotation matrix that carries the telescope-frame point
    [(v2, v3)] to the sky position [(ra, dec)] with position angle [pa];
    a point is carried to the sky by rotating its unit vector and reading
    the spherical angles back.  The aperture constants are those of
    [WFI_CEN].  It is used to run the class on concrete inputs. *)

Module Spherical.

#[local] Open Scope float_scope.

(** *** Elementary functions

    Stand-ins for [numpy]'s [deg2rad], [rad2deg], [sin], [cos], [arctan2]
    and [arcsin]: argument reduction followed by a truncated power series. *)

Definition pi : float := 3.141592653589793.
Definition pio2_hi : float := 1.5707963267948966.
Definition pio2_lo : float := 6.123233995736766e-17.

Definition deg2rad (x : float) : float := x * (pi / 180).
Definition rad2deg (x : float) : float := x * (180 / pi).

(** Nearest integer, for arguments below [2^51] in magnitude. *)
Definition rint (x : float) : float :=
  (x + 6755399441055744) - 6755399441055744.

(** [n] terms of an alternating series whose term [t] of index [m] is
    followed by [- t * y2 / ((m + 1) * (m + 2))]. *)
Fixpoint trig_series (n : nat) (term m y2 : float) : float :=
  match n with
  | O => 0
  | S n' =>
      term + trig_series n' (- (term * y2) / ((m + 1) * (m + 2))) (m + 2) y2
  end.

Definition sin_kernel (y : float) : float := trig_series 12 y 1 (y * y).
Definition cos_kernel (y : float) : float := trig_series 12 1 0 (y * y).

(** [r = n * (pi / 2) + y] with [|y| <= pi / 4]; returns [n] reduced to
    [-2 .. 2] and [y]. *)
Definition quadrant (r : float) : float * float :=
  let n := rint (r / pio2_hi) in
  let y := (r - n * pio2_hi) - n * pio2_lo in
  let q := n - 4 * rint (n / 4) in
  (q, y).

Definition sin (r : float) : float :=
  let (q, y) := quadrant r in
  if q =? 0 then sin_kernel y
  else if q =? 1 then cos_kernel y
  else if q =? -1 then - cos_kernel y
  else if (q =? 2) || (q =? -2) then - sin_kernel y
  else nan.

Definition cos (r : float) : float :=
  let (q, y) := quadrant r in
  if q =? 0 then cos_kernel y
  else if q =? 1 then - sin_kernel y
  else if q =? -1 then sin_kernel y
  else if (q =? 2) || (q =? -2) then - cos_kernel y
  else nan.

Fixpoint atan_series (n : nat) (pow m t2 : float) : float :=
  match n with
  | O => 0
  | S n' => pow / m + atan_series n' (- (pow * t2)) (m + 2) t2
  end.

(** Arc tangent on [-1, 1]: the argument is halved twice. *)
Definition atan_unit (t : float) : float :=
  let h := t / (1 + sqrt (1 + t * t)) in
  let h := h / (1 + sqrt (1 + h * h)) in
  4 * atan_series 14 h 1 (h * h).

Definition atan (t : float) : float :=
  if abs t <=? 1 then atan_unit t
  else if 1 <? t then pi / 2 - atan_unit (1 / t)
  else if t <? -1 then - (pi / 2) - atan_unit (1 / t)
  else nan.

Definition arctan2 (y x : float) : float :=
  if 0 <? x then atan (y / x)
  else if x <? 0 then
    (if 0 <=? y then atan (y / x) + pi
     else if y <? 0 then atan (y / x) - pi
     else nan)
  else if x =? 0 then
    (if 0 <? y then pi / 2
     else if y <? 0 then - (pi / 2)
     else if y =? 0 then 0
     else nan)
  else nan.

Definition arcsin (z : float) : float :=
  arctan2 z (sqrt ((1 - z) * (1 + z))).

(** *** Vectors and matrices *)

Record vec3 : Type := { x0 : float; x1 : float; x2 : float }.
Record mat3 : Type := { row0 : vec3; row1 : vec3; row2 : vec3 }.

Definition dot (u v : vec3) : float :=
  x0 u * x0 v + x1 u * x1 v + x2 u * x2 v.

Definition col (j : vec3 -> float) (m : mat3) : vec3 :=
  {| x0 := j (row0 m); x1 := j (row1 m); x2 := j (row2 m) |}.

Definition mat_vec (m : mat3) (v : vec3) : vec3 :=
  {| x0 := dot (row0 m) v; x1 := dot (row1 m) v; x2 := dot (row2 m) v |}.

Definition vec_mat (u : vec3) (b : mat3) : vec3 :=
  {| x0 := dot u (col x0 b); x1 := dot u (col x1 b); x2 := dot u (col x2 b) |}.

Definition mat_mul (a b : mat3) : mat3 :=
  {| row0 := vec_mat (row0 a) b;
     row1 := vec_mat (row1 a) b;
     row2 := vec_mat (row2 a) b |}.

(** *** Rotations *)

Inductive axis : Type := Axis1 | Axis2 | Axis3.

(** Rotation by [angle] degrees about one of the three axes. *)
Definition rotate (ax : axis) (angle : float) : mat3 :=
  let c := cos (deg2rad angle) in
  let s := sin (deg2rad angle) in
  match ax with
  | Axis1 => {| row0 := {| x0 := 1; x1 := 0; x2 := 0 |};
                row1 := {| x0 := 0; x1 := c; x2 := - s |};
                row2 := {| x0 := 0; x1 := s; x2 := c |} |}
  | Axis2 => {| row0 := {| x0 := c; x1 := 0; x2 := s |};
                row1 := {| x0 := 0; x1 := 1; x2 := 0 |};
                row2 := {| x0 := - s; x1 := 0; x2 := c |} |}
  | Axis3 => {| row0 := {| x0 := c; x1 := - s; x2 := 0 |};
                row1 := {| x0 := s; x1 := c; x2 := 0 |};
                row2 := {| x0 := 0; x1 := 0; x2 := 1 |} |}
  end.

(** Modelled from the spec: [attitude(v2_ref, v3_ref, ra, dec, roll_angle)],
    absent from the sources, "builds a rotation matrix mapping instrument
    ideal coordinates to sky coordinates for a given pointing".  [v2], [v3]
    are in arcseconds, the angles in degrees. *)
Definition attitude (v2 v3 ra dec pa : float) : mat3 :=
  let mv2 := rotate Axis3 (- (v2 / 3600)) in
  let mv3 := rotate Axis2 (v3 / 3600) in
  let mra := rotate Axis3 ra in
  let mdec := rotate Axis2 (- dec) in
  let mpa := rotate Axis1 (- pa) in
  mat_mul mra (mat_mul mdec (mat_mul mpa (mat_mul mv3 mv2))).

(** Unit vector of the direction of longitude [lon] and latitude [lat]. *)
Definition unit (lon lat : float) : vec3 :=
  let l := deg2rad lon in
  let b := deg2rad lat in
  {| x0 := cos l * cos b; x1 := sin l * cos b; x2 := sin b |}.

(** Right ascension in [[0, 360)] and declination of a vector. *)
Definition radec (u : vec3) : float * float :=
  let norm := sqrt (x0 u * x0 u + x1 u * x1 u + x2 u * x2 u) in
  let dec := rad2deg (arcsin (x2 u / norm)) in
  let ra := rad2deg (arctan2 (x1 u) (x0 u)) in
  (if ra <? 0 then ra + 360 else ra, dec).

Definition pointing (m : mat3) (v2 v3 : float) : float * float :=
  radec (mat_vec m (unit (v2 / 3600) (v3 / 3600))).

(** Modelled from the spec: [posangle(attitude_matrix, x, y)], absent from
    the sources, "recovers position angle at a point". *)
Definition posangle (m : mat3) (v2 v3 : float) : float :=
  let v2r := deg2rad (v2 / 3600) in
  let v3r := deg2rad (v3 / 3600) in
  let x := - (x0 (row2 m) * cos v2r + x1 (row2 m) * sin v2r) * sin v3r
           + x2 (row2 m) * cos v3r in
  let y := (x0 (row0 m) * x2 (row1 m) - x0 (row1 m) * x2 (row0 m)) * cos v2r
           + (x1 (row0 m) * x2 (row1 m) - x1 (row1 m) * x2 (row0 m)) * sin v2r in
  rad2deg (arctan2 y x).

(** *** The WFI_CEN aperture *)

Definition WFI_CEN : Aperture mat3 :=
  {| V2Ref := 1546.3846181707652;
     V3Ref := -892.7916365721071;
     _attitude_matrix := None |}.

Definition V3IdlYAngle : float := -60.
Definition VIdlParity : float := -1.

(** Ideal frame to telescope frame: the ideal origin is the reference point
    of the aperture. *)
Definition idl_to_tel (ap : Aperture mat3) (x y : float) : float * float :=
  let a := deg2rad V3IdlYAngle in
  (V2Ref ap + VIdlParity * x * cos a + y * sin a,
   V3Ref ap - VIdlParity * x * sin a + y * cos a).

(** Telescope frame to sky, under the attitude installed in the aperture.
    The class installs an attitude before its first transform, so the second
    branch is never taken by it. *)
Definition tel_to_sky (ap : Aperture mat3) (v2 v3 : float) : float * float :=
  match _attitude_matrix ap with
  | Some m => pointing m v2 v3
  | None => (nan, nan)
  end.

(** Modelled from the spec: [idl_to_sky(attitude_matrix, x_offset,
    y_offset)], absent from the sources, "forward-transforms an ideal-frame
    offset to sky coordinates under a given attitude". *)
Definition idl_to_sky (ap : Aperture mat3) (x y : float) : float * float :=
  let t := idl_to_tel ap x y in
  tel_to_sky ap (fst t) (snd t).

(** Modelled from the spec: the AttitudeFrame collaborator as a whole. *)
Definition siaf : pysiaf.Interface :=
  {| ndarray := mat3;
     Siaf_Roman_WFI_CEN := WFI_CEN;
     pysiaf.attitude := attitude;
     pysiaf.posangle := posangle;
     pysiaf.tel_to_sky := tel_to_sky;
     pysiaf.idl_to_sky := idl_to_sky |}.

(** *** Concrete pointings *)

(** [PointWFI()], that is [PointWFI(ra=80.0, dec=30.0, roll_angle=0.0)]. *)
Definition pointing0 : PointWFI siaf := __init__ None None None.

(** [PointWFI(ra=80.0, dec=95.0, roll_angle=0.0)]. *)
Definition pointing95 : PointWFI siaf :=
  __init__ (Some 80) (Some 95) (Some 0).


(** [PointWFI(ra=100.0, dec=20.0, roll_angle=0.0)]. *)
Definition pointing100 : PointWFI siaf :=
  __init__ (Some 100) (Some 20) (Some 0).

(** [PointWFI(ra=80.0, dec=89.9999, roll_angle=0.0)]: a third of an
    arcsecond from the pole. *)
Definition pointing_near_pole : PointWFI siaf :=
  __init__ (Some 80) (Some 89.9999) (Some 0).

(** [PointWFI(ra=0.0, dec=30.0, roll_angle=45.0)]: on the meridian where
    the right ascension wraps. *)
Definition pointing_meridian : PointWFI siaf :=
  __init__ (Some 0) (Some 30) (Some 45).

(** The example of the class docstring:
    [PointWFI(ra=30, dec=-45, roll_angle=10)], then
    [dither(x_offset=10, y_offset=140)], printed as
    [29.95536280064078 -44.977122003232786]. *)
Definition docstring_pointing : PointWFI siaf :=
  dither (__init__ (Some 30) (Some (-45)) (Some 10)) 10 140.

Definition docstring_position : float * float :=
  (29.95536280064078, -44.977122003232786).

End Spherical.

(** ** The class and its collaborator in exact arithmetic

    Modelled from the spec: the zero-dither law is worded "in exact real
    arithmetic over the embedded AttitudeFrame".  The module below is the
    collaborator of [Spherical] and the class of the section above with
    the real numbers of the standard library in place of binary64: the
    same rotations, products and branches, with [sin], [cos], [atan],
    [asin] and [sqrt] the real functions instead of their series. *)

Module Exact.

#[local] Open Scope R_scope.

(** *** Elementary functions *)

Definition deg2rad (x : R) : R := x * (PI / 180).
Definition rad2deg (x : R) : R := x * (180 / PI).

(** [numpy.arctan2(y, x)]: the angle of the vector [(x, y)] in
    [(- PI, PI]], zero for the null vector. *)
Definition arctan2 (y x : R) : R :=
  if Rlt_dec 0 x then atan (y / x)
  else if Rlt_dec x 0 then
    (if Rle_dec 0 y then atan (y / x) + PI else atan (y / x) - PI)
  else
    (if Rlt_dec 0 y then PI / 2
     else if Rlt_dec y 0 then - (PI / 2)
     else 0).

Definition arcsin (z : R) : R := asin z.

(** *** Vectors and matrices *)

Record vec3 : Type := { x0 : R; x1 : R; x2 : R }.
Record mat3 : Type := { row0 : vec3; row1 : vec3; row2 : vec3 }.

Definition dot (u v : vec3) : R :=
  x0 u * x0 v + x1 u * x1 v + x2 u * x2 v.

Definition col (j : vec3 -> R) (m : mat3) : vec3 :=
  {| x0 := j (row0 m); x1 := j (row1 m); x2 := j (row2 m) |}.

Definition mat_vec (m : mat3) (v : vec3) : vec3 :=
  {| x0 := dot (row0 m) v; x1 := dot (row1 m) v; x2 := dot (row2 m) v |}.

Definition vec_mat (u : vec3) (b : mat3) : vec3 :=
  {| x0 := dot u (col x0 b); x1 := dot u (col x1 b); x2 := dot u (col x2 b) |}.

Definition mat_mul (a b : mat3) : mat3 :=
  {| row0 := vec_mat (row0 a) b;
     row1 := vec_mat (row1 a) b;
     row2 := vec_mat (row2 a) b |}.

(** *** Rotations *)

Inductive axis : Type := Axis1 | Axis2 | Axis3.

(** Rotation by [angle] degrees about one of the three axes. *)
Definition rotate (ax : axis) (angle : R) : mat3 :=
  let c := cos (deg2rad angle) in
  let s := sin (deg2rad angle) in
  match ax with
  | Axis1 => {| row0 := {| x0 := 1; x1 := 0; x2 := 0 |};
                row1 := {| x0 := 0; x1 := c; x2 := - s |};
                row2 := {| x0 := 0; x1 := s; x2 := c |} |}
  | Axis2 => {| row0 := {| x0 := c; x1 := 0; x2 := s |};
                row1 := {| x0 := 0; x1 := 1; x2 := 0 |};
                row2 := {| x0 := - s; x1 := 0; x2 := c |} |}
  | Axis3 => {| row0 := {| x0 := c; x1 := - s; x2 := 0 |};
                row1 := {| x0 := s; x1 := c; x2 := 0 |};
                row2 := {| x0 := 0; x1 := 0; x2 := 1 |} |}
  end.

(** Modelled from the spec: [attitude(v2_ref, v3_ref, ra, dec, roll_angle)],
    as [Spherical.attitude]. *)
Definition attitude (v2 v3 ra dec pa : R) : mat3 :=
  let mv2 := rotate Axis3 (- (v2 / 3600)) in
  let mv3 := rotate Axis2 (v3 / 3600) in
  let mra := rotate Axis3 ra in
  let mdec := rotate Axis2 (- dec) in
  let mpa := rotate Axis1 (- pa) in
  mat_mul mra (mat_mul mdec (mat_mul mpa (mat_mul mv3 mv2))).

(** Unit vector of the direction of longitude [lon] and latitude [lat]. *)
Definition unit (lon lat : R) : vec3 :=
  let l := deg2rad lon in
  let b := deg2rad lat in
  {| x0 := cos l * cos b; x1 := sin l * cos b; x2 := sin b |}.

(** Right ascension in [[0, 360)] and declination of a vector. *)
Definition radec (u : vec3) : R * R :=
  let norm := R_sqrt.sqrt (x0 u * x0 u + x1 u * x1 u + x2 u * x2 u) in
  let dec := rad2deg (arcsin (x2 u / norm)) in
  let ra := rad2deg (arctan2 (x1 u) (x0 u)) in
  (if Rlt_dec ra 0 then ra + 360 else ra, dec).

Definition pointing (m : mat3) (v2 v3 : R) : R * R :=
  radec (mat_vec m (unit (v2 / 3600) (v3 / 3600))).

(** Modelled from the spec: [posangle(attitude_matrix, x, y)], as
    [Spherical.posangle]. *)
Definition posangle (m : mat3) (v2 v3 : R) : R :=
  let v2r := deg2rad (v2 / 3600) in
  let v3r := deg2rad (v3 / 3600) in
  let x := - (x0 (row2 m) * cos v2r + x1 (row2 m) * sin v2r) * sin v3r
           + x2 (row2 m) * cos v3r in
  let y := (x0 (row0 m) * x2 (row1 m) - x0 (row1 m) * x2 (row0 m)) * cos v2r
           + (x1 (row0 m) * x2 (row1 m) - x1 (row1 m) * x2 (row0 m)) * sin v2r in
  rad2deg (arctan2 y x).

(** *** The WFI_CEN aperture *)

Record Aperture : Type := {
  V2Ref : R;
  V3Ref : R;
  _attitude_matrix : option mat3
}.

Definition set_attitude_matrix (ap : Aperture) (m : mat3) : Aperture :=
  {| V2Ref := V2Ref ap; V3Ref := V3Ref ap; _attitude_matrix := Some m |}.

Definition WFI_CEN : Aperture :=
  {| V2Ref := 1546.3846181707652;
     V3Ref := -892.7916365721071;
     _attitude_matrix := None |}.

Definition V3IdlYAngle : R := -60.
Definition VIdlParity : R := -1.

Definition idl_to_tel (ap : Aperture) (x y : R) : R * R :=
  let a := deg2rad V3IdlYAngle in
  (V2Ref ap + VIdlParity * x * cos a + y * sin a,
   V3Ref ap - VIdlParity * x * sin a + y * cos a).

(** The class installs an attitude before its first transform, so the second
    branch is never taken by it. *)
Definition tel_to_sky (ap : Aperture) (v2 v3 : R) : R * R :=
  match _attitude_matrix ap with
  | Some m => pointing m v2 v3
  | None => (0, 0)
  end.

(** Modelled from the spec: [idl_to_sky(attitude_matrix, x_offset,
    y_offset)], as [Spherical.idl_to_sky]. *)
Definition idl_to_sky (ap : Aperture) (x y : R) : R * R :=
  let t := idl_to_tel ap x y in
  tel_to_sky ap (fst t) (snd t).

(** *** The class *)

Record PointWFI : Type := {
  ra : R;
  dec : R;
  roll_angle : R;
  siaf_aperture : Aperture;
  v2_ref : R;
  v3_ref : R;
  attitude_matrix : mat3;
  tel_ra : R;
  tel_dec : R;
  tel_roll : R
}.

Record Boresight : Type := {
  b_tel_ra : R;
  b_tel_dec : R;
  b_attitude_matrix : mat3;
  b_tel_roll : R
}.

(** [_update_boresight_position(self)]. *)
Definition _update_boresight_position
    (self_siaf_aperture : Aperture) (self_roll_angle : R) : Boresight :=
  let boresight_sky := tel_to_sky self_siaf_aperture 0 0 in
  let self_tel_ra := fst boresight_sky in
  let self_tel_dec := snd boresight_sky in
  let self_attitude_matrix :=
    attitude 0 0 self_tel_ra self_tel_dec self_roll_angle in
  let self_tel_roll := posangle self_attitude_matrix 0 0 in
  {| b_tel_ra := self_tel_ra;
     b_tel_dec := self_tel_dec;
     b_attitude_matrix := self_attitude_matrix;
     b_tel_roll := self_tel_roll |}.

(** [__post_init__(self)]. *)
Definition __post_init__ (self_ra self_dec self_roll_angle : R) : PointWFI :=
  let self_siaf_aperture := WFI_CEN in
  let self_v2_ref := V2Ref self_siaf_aperture in
  let self_v3_ref := V3Ref self_siaf_aperture in
  let self_attitude_matrix :=
    attitude self_v2_ref self_v3_ref self_ra self_dec self_roll_angle in
  let self_siaf_aperture :=
    set_attitude_matrix self_siaf_aperture self_attitude_matrix in
  let b := _update_boresight_position self_siaf_aperture self_roll_angle in
  {| ra := self_ra;
     dec := self_dec;
     roll_angle := self_roll_angle;
     siaf_aperture := self_siaf_aperture;
     v2_ref := self_v2_ref;
     v3_ref := self_v3_ref;
     attitude_matrix := b_attitude_matrix b;
     tel_ra := b_tel_ra b;
     tel_dec := b_tel_dec b;
     tel_roll := b_tel_roll b |}.

Definition default_ra : R := 80.
Definition default_dec : R := 30.
Definition default_roll_angle : R := 0.

Definition or_default (arg : option R) (d : R) : R :=
  match arg with
  | Some v => v
  | None => d
  end.

(** The generated [__init__]; [None] stands for an omitted argument. *)
Definition __init__ (ra dec roll_angle : option R) : PointWFI :=
  __post_init__ (or_default ra default_ra)
                (or_default dec default_dec)
                (or_default roll_angle default_roll_angle).

(** [dither(self, x_offset, y_offset)]. *)
Definition dither (self : PointWFI) (x_offset y_offset : R) : PointWFI :=
  let new_sky := idl_to_sky (siaf_aperture self) x_offset y_offset in
  let new_ra := fst new_sky in
  let new_dec := snd new_sky in
  let self_attitude_matrix :=
    attitude (v2_ref self) (v3_ref self) new_ra new_dec (roll_angle self) in
  let self_siaf_aperture :=
    set_attitude_matrix (siaf_aperture self) self_attitude_matrix in
  let b := _update_boresight_position self_siaf_aperture (roll_angle self) in
  {| ra := new_ra;
     dec := new_dec;
     roll_angle := roll_angle self;
     siaf_aperture := self_siaf_aperture;
     v2_ref := v2_ref self;
     v3_ref := v3_ref self;
     attitude_matrix := b_attitude_matrix b;
     tel_ra := b_tel_ra b;
     tel_dec := b_tel_dec b;
     tel_roll := b_tel_roll b |}.

(** Reading the attributes [ra] and [dec]. *)
Definition CurrentPosition (self : PointWFI) : R * R := (ra self, dec self).

(** States reachable by a construction followed by dither calls. *)
Inductive reachable : PointWFI -> Prop :=
| reachable_init (ra dec roll_angle : option R) :
    reachable (__init__ ra dec roll_angle)
| reachable_dither (s : PointWFI) (x_offset y_offset : R) :
    reachable s -> reachable (dither s x_offset y_offset).

End Exact.

(** * The cells around the class

    The rest of the Roman I-Sim notebook that carries logic of its own: the
    cell that rejects catalog entries with missing data, the output file
    name of a simulation, and the cell that submits one simulation per
    detector at the pointing of a [PointWFI] object. *)

(** ** Rejecting catalog entries with missing data
<<
    # Reject anything with missing fluxes or positions
    names = [f for f in gaia_catalog.dtype.names if f[0] == 'F']
    names += ['ra', 'dec']

    bad = np.zeros(len(gaia_catalog), dtype='bool')
    for b in names:
          bad = ~np.isfinite(gaia_catalog[b])
          if hasattr(gaia_catalog[b], 'mask'):
               bad |= gaia_catalog[b].mask
          gaia_catalog = gaia_catalog[~bad]
>>
    [gaia_catalog] is an astropy table.  It is modelled column by column, as
    the library stores it: a column is an array of floats or of strings, and
    a masked column carries a boolean mask besides.  The operations of
    [numpy] and [astropy] that the cell uses are written out with their
    documented meaning.  [gaia_catalog.dtype] is the [numpy] dtype built
    from the names of the columns: a column whose name is empty gives the
    field [f<i>], [i] its position, so every name in [dtype.names] has a
    first character. *)

Module Catalog.

#[local] Open Scope string_scope.

(** The exceptions the cell can end with. *)
Inductive pyexn : Type :=
| KeyError (key : string)
| ValueError
| TypeError.

Inductive array : Type :=
| Floats (values : list float)
| Strings (values : list string).

(** A column; [mask] is [None] for a plain column, which has no attribute
    [mask]. *)
Record Column : Type := {
  data : array;
  mask : option (list bool)
}.

(** A table: its columns in order, by name. *)
Definition Table : Type := list (string * Column).

(** [gaia_catalog.colnames]: the names of the columns, in order. *)
Definition colnames (t : Table) : list string := map fst t.

(** The name [numpy] gives the field at position [i] of a dtype: the name
    of the column, or [f<i>] when that name is empty. *)
Definition field_name (i : nat) (name : string) : string :=
  match name with
  | EmptyString => String "f" (NilEmpty.string_of_uint (Nat.to_uint i))
  | String _ _ => name
  end.

Fixpoint field_names (i : nat) (names : list string) : list string :=
  match names with
  | [] => []
  | name :: rest => field_name i name :: field_names (S i) rest
  end.

(** No name occurs twice. *)
Fixpoint distinct (names : list string) : bool :=
  match names with
  | [] => true
  | name :: rest => negb (existsb (String.eqb name) rest) && distinct rest
  end.

(** [gaia_catalog.dtype.names]; [None] stands for the [ValueError] that
    [numpy] raises when two fields of a dtype get the same name. *)
Definition dtype_names (t : Table) : option (list string) :=
  let names := field_names 0 (colnames t) in
  if distinct names then Some names else None.

(** [gaia_catalog[b]] for a name [b]; [None] stands for [KeyError]. *)
Fixpoint getitem (t : Table) (name : string) : option Column :=
  match t with
  | [] => None
  | (n, c) :: t' => if String.eqb n name then Some c else getitem t' name
  end.

Definition size (a : array) : nat :=
  match a with
  | Floats l => List.length l
  | Strings l => List.length l
  end.

(** [len(gaia_catalog)]: the number of rows. *)
Definition len (t : Table) : nat :=
  match t with
  | [] => 0
  | (_, c) :: _ => size (data c)
  end.

(** Indexing an array by a boolean array: the entries at the positions
    that hold [True]. *)
Fixpoint compress {A : Type} (keep : list bool) (l : list A) : list A :=
  match keep, l with
  | k :: keep', x :: l' =>
      if k then x :: compress keep' l' else compress keep' l'
  | _, _ => []
  end.

Definition take (keep : list bool) (c : Column) : Column :=
  {| data := match data c with
             | Floats l => Floats (compress keep l)
             | Strings l => Strings (compress keep l)
             end;
     mask := option_map (compress keep) (mask c) |}.

(** [gaia_catalog[keep]] for a boolean array [keep]: the same columns, each
    indexed by [keep]. *)
Definition take_rows (t : Table) (keep : list bool) : Table :=
  map (fun nc => (fst nc, take keep (snd nc))) t.

(** [np.isfinite(column)]; [None] stands for the [TypeError] raised on a
    column of strings. *)
Definition isfinite (c : Column) : option (list bool) :=
  match data c with
  | Floats l => Some (map is_finite l)
  | Strings _ => None
  end.

(** [~a]. *)
Definition invert (a : list bool) : list bool := map negb a.

Fixpoint zip_with (f : bool -> bool -> bool) (a b : list bool) : list bool :=
  match a, b with
  | x :: a', y :: b' => f x y :: zip_with f a' b'
  | _, _ => []
  end.

(** [a | b]. *)
Definition bitwise_or : list bool -> list bool -> list bool := zip_with orb.

(** [f[0] == 'F'], for a name of a dtype, which is never empty. *)
Definition first_is_F (f : string) : bool :=
  match f with
  | EmptyString => false
  | String c _ => Ascii.eqb c "F"
  end.

(** [[f for f in dtype_names if f[0] == 'F']]. *)
Definition flux_names (dtype_names : list string) : list string :=
  filter first_is_F dtype_names.

(** How the cell ends: it runs to its end, leaving [bad] and
    [gaia_catalog], or an exception stops it, leaving [gaia_catalog] as it
    was last bound. *)
Inductive cell_outcome : Type :=
| Finished (bad : list bool) (gaia_catalog : Table)
| Failed (e : pyexn) (gaia_catalog : Table).

(** The [for] loop. *)
Fixpoint reject_loop (names : list string) (bad : list bool)
    (gaia_catalog : Table) : cell_outcome :=
  match names with
  | [] => Finished bad gaia_catalog
  | b :: names' =>
      match getitem gaia_catalog b with
      | None => Failed (KeyError b) gaia_catalog
      | Some column =>
          match isfinite column with
          | None => Failed TypeError gaia_catalog
          | Some finite =>
              let bad := invert finite in
              let bad := match mask column with
                         | Some m => bitwise_or bad m
                         | None => bad
                         end in
              let gaia_catalog := take_rows gaia_catalog (invert bad) in
              reject_loop names' bad gaia_catalog
          end
      end
  end.

(** The whole cell. *)
Definition reject_missing (gaia_catalog : Table) : cell_outcome :=
  match dtype_names gaia_catalog with
  | None => Failed ValueError gaia_catalog
  | Some dtype_names =>
      let names := flux_names dtype_names in
      let names := (names ++ ["ra"; "dec"])%list in
      let bad := repeat false (len gaia_catalog) in
      reject_loop names bad gaia_catalog
  end.

(** *** Predicates used by the statements *)

(** A column of [n] rows. *)
Definition column_rows (n : nat) (c : Column) : Prop :=
  size (data c) = n /\
  match mask c with Some m => List.length m = n | None => True end.

Definition rows (n : nat) (t : Table) : Prop :=
  Forall (fun nc => column_rows n (snd nc)) t.

(** Every column has as many rows as the table: what an astropy table
    always is. *)
Definition rectangular (t : Table) : Prop := rows (len t) t.

(** The entry of row [i] is a finite float that is not masked. *)
Definition value_ok (c : Column) (i : nat) : bool :=
  match data c with
  | Floats l => is_finite (nth i l nan)
  | Strings _ => false
  end &&
  match mask c with
  | Some m => negb (nth i m true)
  | None => true
  end.

(** Every entry of the column is a finite float that is not masked. *)
Definition clean (c : Column) : Prop :=
  (exists l, data c = Floats l /\ Forall (fun v => is_finite v = true) l) /\
  match mask c with
  | Some m => Forall (fun x => x = false) m
  | None => True
  end.

(** The value of [bad] that the loop body computes for a column. *)
Definition column_bad (c : Column) : option (list bool) :=
  match isfinite c with
  | None => None
  | Some finite =>
      Some (match mask c with
            | Some m => bitwise_or (invert finite) m
            | None => invert finite
            end)
  end.

(** The rows of the original table that survive the columns [names],
    starting from the rows [acc]. *)
Fixpoint keep_rows (t : Table) (names : list string) (acc : list bool)
    : option (list bool) :=
  match names with
  | [] => Some acc
  | b :: names' =>
      match getitem t b with
      | None => None
      | Some c =>
          match column_bad c with
          | None => None
          | Some bad => keep_rows t names' (zip_with andb acc (invert bad))
          end
      end
  end.

(** The names the cell checks: the flux columns, then [ra] and [dec]. *)
Definition checked_names (t : Table) : option (list string) :=
  match dtype_names t with
  | None => None
  | Some dtype_names => Some (flux_names dtype_names ++ ["ra"; "dec"])%list
  end.

(** *** Small catalogs *)

Definition column (l : list float) : Column :=
  {| data := Floats l; mask := None |}.

(** Four sources: the second has an infinite flux, the third no right
    ascension, the fourth a masked declination. *)
Definition gaia_demo : Table :=
  [ ("ra", column [10; 20; nan; 40]%float);
    ("dec", {| data := Floats [1; 2; 3; 4]%float;
               mask := Some [false; false; false; true] |});
    ("type", {| data := Strings ["PSF"; "PSF"; "SER"; "PSF"];
                mask := None |});
    ("F062", column [1; infinity; 3; 4]%float);
    ("F158", column [5; 6; 7; 8]%float) ].

Definition gaia_demo_kept : Table :=
  [ ("ra", column [10]%float);
    ("dec", {| data := Floats [1]%float; mask := Some [false] |});
    ("type", {| data := Strings ["PSF"]; mask := None |});
    ("F062", column [1]%float);
    ("F158", column [5]%float) ].

(** A catalog without the column [ra]. *)
Definition gaia_no_ra : Table :=
  [ ("dec", column [1; 2]%float); ("F062", column [1; infinity]%float) ].

Definition gaia_no_ra_left : Table :=
  [ ("dec", column [1]%float); ("F062", column [1]%float) ].

(** A catalog whose first column has the empty name, and no column [dec]. *)
Definition gaia_unnamed : Table :=
  [ (EmptyString, column [1; 2]%float); ("ra", column [1; 2]%float) ].

End Catalog.

(** ** Output file names and the tasks of the parallel run

    The simulation cell names its output:
<<
    cal_level = 'cal' if level == 2 else 'uncal'
    filename = f'r0003201001001001004_0001_wfi{sca:02d}_{cal_level}.asdf'
>>
    The notebook then gives the same simulation as a function and submits
    one call per detector; both cells are shipped with every line commented
    out, to be uncommented by the reader:
<<
    #def run_romanisim(catalog, ra=80.0, dec=30.0, obs_date = '2026-10-31T00:00:00', sca=1, expnum=1, optical_element='F106',
    #                  ma_table_number=3, level=2, filename=f'r0003201001001001004', seed=5346):
    #
    #    cal_level = 'cal' if level == 2 else 'uncal'
    #    filename = f'{filename}_{expnum:04d}_wfi{sca:02d}_{cal_level}.asdf'

    #tasks = []
    #for i in range(n_detectors):
    #    tasks.append(dask_client.submit(run_romanisim, full_catalog, **{'ra': pointing.ra, 'dec': pointing.dec, 'sca': i+1+offset, 'expnum': expnum}))
>>
    Of [run_romanisim] the embedding keeps the two statements that compute
    the file name; a submitted task is the keyword arguments of its call. *)

Module Simulation.

#[local] Open Scope string_scope.

(** ['cal' if level == 2 else 'uncal']. *)
Definition cal_level (level : Z) : string :=
  if (level =? 2)%Z then "cal" else "uncal".

(** The decimal digits of a natural number. *)
Definition digits (n : N) : string :=
  NilEmpty.string_of_uint (N.to_uint n).

Fixpoint zeros (k : nat) : string :=
  match k with
  | O => EmptyString
  | S k' => String "0" (zeros k')
  end.

Definition zero_fill (width : nat) (s : string) : string :=
  zeros (width - String.length s) ++ s.

(** Python's format specification [0<width>d] for an integer: the sign, if
    any, then zeros up to [width] characters in all, then the digits. *)
Definition format_0d (width : nat) (n : Z) : string :=
  if (n <? 0)%Z
  then String "-" (zero_fill (width - 1) (digits (Z.to_N (- n))))
  else zero_fill width (digits (Z.to_N n)).

(** The file name of the simulation cell, for its variables [sca] and
    [level]. *)
Definition filename (sca level : Z) : string :=
  "r0003201001001001004_0001_wfi" ++ format_0d 2 sca ++ "_"
    ++ cal_level level ++ ".asdf".

(** The default of the argument [filename] of [run_romanisim]. *)
Definition default_filename : string := "r0003201001001001004".

(** The file name computed by [run_romanisim]. *)
Definition run_romanisim_filename (filename : string) (expnum sca level : Z)
    : string :=
  filename ++ "_" ++ format_0d 4 expnum ++ "_wfi" ++ format_0d 2 sca ++ "_"
    ++ cal_level level ++ ".asdf".

(** [range(n)]. *)
Definition range (n : Z) : list Z := map Z.of_nat (seq 0 (Z.to_nat n)).

(** The keyword arguments of one submitted call. *)
Record Task : Type := {
  task_ra : float;
  task_dec : float;
  task_sca : Z;
  task_expnum : Z
}.

(** The list [tasks] after the loop. *)
Definition tasks {siaf : pysiaf.Interface} (pointing : PointWFI siaf)
    (n_detectors offset expnum : Z) : list Task :=
  map (fun i => {| task_ra := ra pointing;
                   task_dec := dec pointing;
                   task_sca := i + 1 + offset;
                   task_expnum := expnum |})
      (range n_detectors).

(** The file a task writes: [level] and [filename] are left to their
    defaults. *)
Definition task_filename (t : Task) : string :=
  run_romanisim_filename default_filename (task_expnum t) (task_sca t) 2.

(** *** Reading a field back *)

(** The integer written in a field produced by [format_0d]. *)
Definition parse_0d (s : string) : Z :=
  let value r :=
    match NilEmpty.uint_of_string r with
    | Some u => Z.of_N (N.of_uint u)
    | None => 0%Z
    end in
  match s with
  | String c r => if Ascii.eqb c "-" then (- value r)%Z else value s
  | EmptyString => 0%Z
  end.

Fixpoint has_char (c : ascii) (s : string) : bool :=
  match s with
  | EmptyString => false
  | String a s' => Ascii.eqb a c || has_char c s'
  end.

End Simulation.

(** * Properties *)

(** ** Floats *)

(** Two floats on which the Leibniz test answers [false] are different. *)
Lemma float_neq (x y : float) :
  Leibniz.eqb x y = false -> Leibniz.eqb y y = true -> x <> y.
Proof.
  intros Hxy Hyy E. rewrite E in Hxy. rewrite Hxy in Hyy. discriminate Hyy.
Qed.

(** Closes [a <> b] for two closed float expressions. *)
Ltac float_discriminate :=
  apply float_neq; vm_compute; reflexivity.

Lemma pair_fst_snd (A B : Type) (p : A * B) : (fst p, snd p) = p.
Proof. destruct p. reflexivity. Qed.

Section Properties.

Context {siaf : pysiaf.Interface}.

Lemma set_attitude_matrix_twice (ap : Aperture ndarray) (m1 m2 : ndarray) :
  set_attitude_matrix (set_attitude_matrix ap m1) m2 = set_attitude_matrix ap m2.
Proof. reflexivity. Qed.

(** ** What [dither] leaves alone *)

Lemma dither_roll_angle (s : PointWFI siaf) (x y : float) :
  roll_angle (dither s x y) = roll_angle s.
Proof. reflexivity. Qed.

Lemma dither_v2_ref (s : PointWFI siaf) (x y : float) :
  v2_ref (dither s x y) = v2_ref s.
Proof. reflexivity. Qed.

Lemma dither_v3_ref (s : PointWFI siaf) (x y : float) :
  v3_ref (dither s x y) = v3_ref s.
Proof. reflexivity. Qed.

(** ** What [dither] writes *)

Lemma dither_position (s : PointWFI siaf) (x y : float) :
  CurrentPosition (dither s x y) = idl_to_sky (siaf_aperture s) x y.
Proof. unfold CurrentPosition. simpl. apply pair_fst_snd. Qed.

Lemma dither_aperture (s : PointWFI siaf) (x y : float) :
  siaf_aperture (dither s x y) =
  set_attitude_matrix (siaf_aperture s)
    (attitude (v2_ref s) (v3_ref s)
              (ra (dither s x y)) (dec (dither s x y)) (roll_angle s)).
Proof. reflexivity. Qed.

(** ** The aperture follows the target *)

Lemma aperture_consistent_init (ra dec roll_angle : option float) :
  aperture_consistent (__init__ ra dec roll_angle).
Proof. unfold aperture_consistent. repeat split. Qed.

Lemma aperture_consistent_dither (s : PointWFI siaf) (x y : float) :
  aperture_consistent s -> aperture_consistent (dither s x y).
Proof.
  intros (Hv2 & Hv3 & Hap).
  unfold aperture_consistent.
  rewrite dither_v2_ref, dither_v3_ref, dither_roll_angle, dither_aperture.
  repeat split; try assumption.
  rewrite Hap, Hv2, Hv3. unfold aperture_at.
  apply set_attitude_matrix_twice.
Qed.

Lemma reachable_aperture_consistent (s : PointWFI siaf) :
  reachable s -> aperture_consistent s.
Proof.
  induction 1 as [ra0 dec0 roll0 | s x y Hs IH].
  - apply aperture_consistent_init.
  - apply aperture_consistent_dither. exact IH.
Qed.

Lemma aperture_consistent_matrix (s : PointWFI siaf) :
  aperture_consistent s ->
  _attitude_matrix (siaf_aperture s) =
  Some (attitude (v2_ref s) (v3_ref s) (ra s) (dec s) (roll_angle s)).
Proof.
  intros (Hv2 & Hv3 & Hap). rewrite Hap, Hv2, Hv3. reflexivity.
Qed.

(** ** The boresight attributes follow the aperture *)

Lemma boresight_consistent_init (ra dec roll_angle : option float) :
  boresight_consistent (__init__ ra dec roll_angle).
Proof.
  unfold boresight_consistent. repeat split.
  simpl. apply pair_fst_snd.
Qed.

Lemma boresight_consistent_dither (s : PointWFI siaf) (x y : float) :
  boresight_consistent (dither s x y).
Proof.
  unfold boresight_consistent. repeat split.
  simpl. apply pair_fst_snd.
Qed.

Lemma reachable_boresight_consistent (s : PointWFI siaf) :
  reachable s -> boresight_consistent s.
Proof.
  destruct 1.
  - apply boresight_consistent_init.
  - apply boresight_consistent_dither.
Qed.

(** ** Sequences of dither calls *)

Lemma dithers_snoc (s : PointWFI siaf) (offsets : list (float * float))
    (x y : float) :
  dithers s (offsets ++ [(x, y)]) = dither (dithers s offsets) x y.
Proof. unfold dithers. rewrite fold_left_app. reflexivity. Qed.

Lemma dithers_reachable (s : PointWFI siaf) (offsets : list (float * float)) :
  reachable s -> reachable (dithers s offsets).
Proof.
  revert s. induction offsets as [| d offsets IH]; intros s Hs.
  - exact Hs.
  - simpl. apply IH. apply reachable_dither. exact Hs.
Qed.

Lemma reachable_dithers (s : PointWFI siaf) :
  reachable s ->
  exists ra dec roll_angle offsets,
    s = dithers (__init__ ra dec roll_angle) offsets.
Proof.
  induction 1 as [ra0 dec0 roll0 | s x y Hs IH].
  - exists ra0, dec0, roll0, []. reflexivity.
  - destruct IH as (ra0 & dec0 & roll0 & offsets & ->).
    exists ra0, dec0, roll0, (offsets ++ [(x, y)]).
    symmetry. apply dithers_snoc.
Qed.

Lemma dithers_frame (s : PointWFI siaf) (offsets : list (float * float)) :
  roll_angle (dithers s offsets) = roll_angle s /\
  v2_ref (dithers s offsets) = v2_ref s /\
  v3_ref (dithers s offsets) = v3_ref s.
Proof.
  revert s. induction offsets as [| d offsets IH]; intros s.
  - repeat split.
  - simpl. destruct (IH (dither s (fst d) (snd d))) as (Hr & Hv2 & Hv3).
    rewrite Hr, Hv2, Hv3. repeat split.
Qed.

(** The position after a dither from a reachable state, in terms of the
    stored position alone. *)
Lemma reachable_dither_position (s : PointWFI siaf) (x y : float) :
  reachable s ->
  CurrentPosition (dither s x y) =
  idl_to_sky (aperture_at (ra s) (dec s) (roll_angle s)) x y.
Proof.
  intros Hs. rewrite dither_position.
  destruct (reachable_aperture_consistent Hs) as (_ & _ & ->).
  reflexivity.
Qed.

End Properties.

(** ** The class in exact arithmetic *)

Section ExactProperties.

Import Exact.

#[local] Open Scope R_scope.

Lemma exact_mat_vec_mul (a b : mat3) (v : vec3) :
  mat_vec (mat_mul a b) v = mat_vec a (mat_vec b v).
Proof.
  destruct a as [[a00 a01 a02] [a10 a11 a12] [a20 a21 a22]].
  destruct b as [[b00 b01 b02] [b10 b11 b12] [b20 b21 b22]].
  destruct v as [v0 v1 v2].
  unfold mat_vec, mat_mul, vec_mat, col, dot; simpl.
  f_equal; ring.
Qed.

Lemma exact_sin2_cos2 (a : R) : sin a * sin a + cos a * cos a = 1.
Proof. exact (sin2_cos2 a). Qed.

Lemma exact_deg2rad_opp (x : R) : deg2rad (- x) = - deg2rad x.
Proof. unfold deg2rad. ring. Qed.


(** The attitude carries its reference point to its target. *)
Lemma exact_attitude_reference (v2 v3 ra dec pa : R) :
  mat_vec (attitude v2 v3 ra dec pa) (unit (v2 / 3600) (v3 / 3600))
  = unit ra dec.
Proof.
  unfold attitude. cbv zeta. rewrite !exact_mat_vec_mul.
  unfold rotate, unit, mat_vec, dot. cbv zeta. simpl.
  rewrite !exact_deg2rad_opp, !cos_neg, !sin_neg.
  set (l := deg2rad (v2 / 3600)). set (b := deg2rad (v3 / 3600)).
  pose proof (exact_sin2_cos2 l) as Hl. pose proof (exact_sin2_cos2 b) as Hb.
  set (sl := sin l) in *. set (cl := cos l) in *.
  set (sb := sin b) in *. set (cb := cos b) in *.
  assert (H0 : cl * (cl * cb) + - - sl * (sl * cb) + 0 * sb = cb).
  { transitivity ((sl * sl + cl * cl) * cb); [ring | rewrite Hl; ring]. }
  assert (H1 : - sl * (cl * cb) + cl * (sl * cb) + 0 * sb = 0) by ring.
  assert (H2 : 0 * (cl * cb) + 0 * (sl * cb) + 1 * sb = sb) by ring.
  rewrite H0, H1, H2.
  assert (H3 : cb * cb + 0 * 0 + sb * sb = 1).
  { transitivity (sb * sb + cb * cb); [ring | exact Hb]. }
  assert (H4 : 0 * cb + 1 * 0 + 0 * sb = 0) by ring.
  assert (H5 : - sb * cb + 0 * 0 + cb * sb = 0) by ring.
  rewrite H3, H4, H5.
  f_equal; ring.
Qed.


Lemma exact_idl_origin (ap : Aperture) :
  idl_to_tel ap 0 0 = (V2Ref ap, V3Ref ap).
Proof. unfold idl_to_tel. cbv zeta. f_equal; ring. Qed.

Lemma exact_unit_norm (lon lat : R) :
  x0 (unit lon lat) * x0 (unit lon lat)
  + x1 (unit lon lat) * x1 (unit lon lat)
  + x2 (unit lon lat) * x2 (unit lon lat) = 1.
Proof.
  unfold unit. cbv zeta. simpl.
  pose proof (exact_sin2_cos2 (deg2rad lon)) as Hl.
  pose proof (exact_sin2_cos2 (deg2rad lat)) as Hb.
  set (sl := sin (deg2rad lon)) in *. set (cl := cos (deg2rad lon)) in *.
  set (sb := sin (deg2rad lat)) in *. set (cb := cos (deg2rad lat)) in *.
  transitivity ((sl * sl + cl * cl) * (cb * cb) + sb * sb); [ring |].
  rewrite Hl, Rmult_1_l, Rplus_comm. exact Hb.
Qed.






Lemma exact_sin_pos (a : R) : 0 < a < PI -> 0 < sin a.
Proof. intros Ha. apply sin_gt_0; lra. Qed.

Lemma exact_sin_neg (a : R) : - PI < a < 0 -> sin a < 0.
Proof.
  intros Ha. replace a with (- (- a)) by ring. rewrite sin_neg.
  assert (0 < sin (- a)) by (apply sin_gt_0; lra). lra.
Qed.





(** The aperture of a reachable object carries the attitude anchored at the
    stored position. *)
Lemma exact_reachable_aperture (s : PointWFI) :
  reachable s ->
  v2_ref s = V2Ref WFI_CEN /\ v3_ref s = V3Ref WFI_CEN /\
  V2Ref (siaf_aperture s) = V2Ref WFI_CEN /\
  V3Ref (siaf_aperture s) = V3Ref WFI_CEN /\
  _attitude_matrix (siaf_aperture s)
  = Some (attitude (V2Ref WFI_CEN) (V3Ref WFI_CEN)
                   (ra s) (dec s) (roll_angle s)).
Proof.
  induction 1 as [ra0 dec0 roll0 | s x y Hs (H2 & H3 & HV2 & HV3 & Hm)].
  - repeat split; reflexivity.
  - unfold dither. cbv zeta. simpl. rewrite H2, H3.
    repeat split; assumption.
Qed.

Lemma exact_dither_zero (s : PointWFI) :
  reachable s ->
  CurrentPosition (dither s 0 0) = radec (unit (ra s) (dec s)).
Proof.
  intros Hs.
  destruct (exact_reachable_aperture Hs) as (_ & _ & HV2 & HV3 & Hm).
  unfold CurrentPosition, dither. cbv zeta. simpl.
  rewrite <- surjective_pairing.
  unfold idl_to_sky. cbv zeta. rewrite exact_idl_origin. simpl.
  unfold tel_to_sky. rewrite Hm, HV2, HV3. unfold pointing.
  rewrite exact_attitude_reference. reflexivity.
Qed.

Lemma exact_arctan2_range (y x : R) : - PI < arctan2 y x <= PI.
Proof.
  pose proof PI_RGT_0 as Hpi. pose proof (atan_bound (y / x)) as Hb.
  unfold arctan2.
  destruct (Rlt_dec 0 x) as [Hx | Hx]; [lra |].
  destruct (Rlt_dec x 0) as [Hx' | Hx'].
  - assert (Hi : / x < 0) by (apply Rinv_lt_0_compat, Hx').
    destruct (Rle_dec 0 y) as [Hy | Hy].
    + assert (Hq : y / x <= 0).
      { unfold Rdiv. assert (0 <= y * - / x) by (apply Rmult_le_pos; lra).
        lra. }
      assert (Ha : atan (y / x) <= 0).
      { destruct Hq as [Hq | Hq].
        - pose proof (atan_increasing _ _ Hq) as H. rewrite atan_0 in H. lra.
        - rewrite Hq, atan_0. lra. }
      lra.
    + assert (Hq : 0 < y / x).
      { unfold Rdiv.
        replace (y * / x) with ((- y) * (- / x)) by ring.
        apply Rmult_lt_0_compat; lra. }
      pose proof (atan_increasing _ _ Hq) as H. rewrite atan_0 in H. lra.
  - destruct (Rlt_dec 0 y); [lra |]. destruct (Rlt_dec y 0); lra.
Qed.

(** Whatever the vector, the right ascension read back lies in
    [[0, 360)]. *)
Lemma exact_radec_range (u : vec3) : 0 <= fst (radec u) < 360.
Proof.
  pose proof PI_RGT_0 as Hpi.
  pose proof (exact_arctan2_range (x1 u) (x0 u)) as Ha.
  unfold radec. cbv zeta. simpl.
  set (a := arctan2 (x1 u) (x0 u)) in *.
  assert (Hk : 0 < 180 / PI) by (apply Rdiv_lt_0_compat; lra).
  assert (Hlo : - PI * (180 / PI) < rad2deg a).
  { unfold rad2deg. apply Rmult_lt_compat_r; lra. }
  assert (Hhi : rad2deg a <= PI * (180 / PI)).
  { unfold rad2deg. apply Rmult_le_compat_r; lra. }
  replace (- PI * (180 / PI)) with (-180) in Hlo by (field; lra).
  replace (PI * (180 / PI)) with 180 in Hhi by (field; lra).
  destruct (Rlt_dec (rad2deg a) 0); lra.
Qed.

(** After any dither from a reachable state the stored right ascension
    lies in [[0, 360)]. *)
Lemma exact_dither_ra_range (s : PointWFI) (x y : R) :
  reachable s -> 0 <= ra (dither s x y) < 360.
Proof.
  intros Hs.
  destruct (exact_reachable_aperture Hs) as (_ & _ & _ & _ & Hm).
  unfold dither. cbv zeta. simpl.
  unfold idl_to_sky. cbv zeta. unfold tel_to_sky. rewrite Hm.
  apply exact_radec_range.
Qed.

(** At the north pole the right ascension read back is zero, whatever the
    stored one. *)
Lemma exact_dither_zero_pole (ra0 roll0 : R) :
  CurrentPosition (dither (__init__ (Some ra0) (Some 90) (Some roll0)) 0 0)
  = (0, 90).
Proof.
  pose proof PI_RGT_0 as Hpi.
  rewrite (exact_dither_zero
             (reachable_init (Some ra0) (Some 90) (Some roll0))). simpl.
  unfold radec. cbv zeta. rewrite exact_unit_norm, sqrt_1.
  unfold unit. cbv zeta. simpl.
  replace (deg2rad 90) with (PI / 2) by (unfold deg2rad; field).
  rewrite cos_PI2, sin_PI2, !Rmult_0_r.
  unfold arctan2.
  destruct (Rlt_dec 0 0) as [Hn | _]; [lra |].
  replace (rad2deg 0) with 0 by (unfold rad2deg; field; lra).
  destruct (Rlt_dec 0 0) as [Hn | _]; [lra |].
  f_equal. unfold arcsin. replace (1 / 1) with 1 by field.
  rewrite asin_1. unfold rad2deg. field. lra.
Qed.

End ExactProperties.

(** ** The executable collaborator against the class docstring

    The docstring of the class prints the position reached from
    [(30, -45)] with roll [10] by [dither(10, 140)]; the executable
    collaborator reproduces it to within [1e-12] degrees. *)
Lemma docstring_example :
  close 1e-12 (CurrentPosition Spherical.docstring_pointing)
             Spherical.docstring_position = true.
Proof. vm_compute. reflexivity. Qed.

(** * The claims *)

(** ** C1: the two attitude matrices *)

(** C1, as stated, fails: after [PointWFI()] the attribute
    [attitude_matrix] is not the matrix [attitude(v2_ref, v3_ref, ra, dec,
    roll_angle)] of the stored target; [_update_boresight_position] has
    replaced it by the matrix anchored at the boresight. *)
Lemma attitude_matrix_not_target_anchored :
  reachable Spherical.pointing0 /\
  ~ attitude_matrix_target_anchored Spherical.pointing0.
Proof.
  split.
  - apply reachable_init.
  - unfold attitude_matrix_target_anchored. intros H.
    apply (f_equal (fun m => Spherical.x1 (Spherical.row2 m))) in H.
    vm_compute in H. revert H. float_discriminate.
Qed.

(** C1, amended: after a construction and any sequence of dither calls,
    the attitude matrix installed in the aperture is
    [attitude(v2_ref, v3_ref, ra, dec, roll_angle)] for the stored [ra] and
    [dec], and the attribute [attitude_matrix] is
    [attitude(0, 0, tel_ra, tel_dec, roll_angle)] for the boresight
    [(tel_ra, tel_dec)] that this aperture gives; neither is stale. *)
Theorem attitude_matrices_consistent {siaf : pysiaf.Interface}
    (ra0 dec0 roll0 : option float) (offsets : list (float * float)) :
  let s := dithers (__init__ ra0 dec0 roll0) offsets in
  _attitude_matrix (siaf_aperture s) =
    Some (attitude (v2_ref s) (v3_ref s) (ra s) (dec s) (roll_angle s)) /\
  (tel_ra s, tel_dec s) = tel_to_sky (siaf_aperture s) 0 0 /\
  attitude_matrix s = attitude 0 0 (tel_ra s) (tel_dec s) (roll_angle s).
Proof.
  intros s.
  assert (Hs : reachable s) by (apply dithers_reachable, reachable_init).
  split.
  - apply aperture_consistent_matrix, reachable_aperture_consistent, Hs.
  - destruct (reachable_boresight_consistent Hs) as (Htel & Hm & _).
    split; assumption.
Qed.

(** ** C2: the steps of one dither *)

(** C2: from a reachable state, [dither(x_offset, y_offset)] (a) obtains
    [(new_ra, new_dec)] from the ideal-to-sky transform of the aperture
    whose attitude is anchored at the stored position, (b) installs the
    attitude built from [(v2_ref, v3_ref, new_ra, new_dec, roll_angle)],
    (c) stores [(new_ra, new_dec)]; so the next dither is transformed
    through the attitude anchored at [(new_ra, new_dec)]. *)
Theorem dither_steps {siaf : pysiaf.Interface}
    (s : PointWFI siaf) (x_offset y_offset : float) :
  reachable s ->
  let new_sky :=
    idl_to_sky (aperture_at (ra s) (dec s) (roll_angle s)) x_offset y_offset in
  let s' := dither s x_offset y_offset in
  _attitude_matrix (siaf_aperture s') =
    Some (attitude (v2_ref s) (v3_ref s)
                   (fst new_sky) (snd new_sky) (roll_angle s)) /\
  CurrentPosition s' = new_sky /\
  forall x2 y2 : float,
    CurrentPosition (dither s' x2 y2) =
    idl_to_sky (aperture_at (fst new_sky) (snd new_sky) (roll_angle s)) x2 y2.
Proof.
  intros Hs. cbv zeta.
  set (new_sky :=
         idl_to_sky (aperture_at (ra s) (dec s) (roll_angle s))
                    x_offset y_offset).
  assert (Hpos : CurrentPosition (dither s x_offset y_offset) = new_sky)
    by (apply reachable_dither_position, Hs).
  assert (Hra : ra (dither s x_offset y_offset) = fst new_sky)
    by (rewrite <- Hpos; reflexivity).
  assert (Hdec : dec (dither s x_offset y_offset) = snd new_sky)
    by (rewrite <- Hpos; reflexivity).
  repeat split.
  - rewrite dither_aperture, Hra, Hdec. reflexivity.
  - exact Hpos.
  - intros x2 y2.
    rewrite (reachable_dither_position x2 y2
               (reachable_dither x_offset y_offset Hs)).
    rewrite Hra, Hdec. reflexivity.
Qed.

Lemma dither_steps_witness :
  reachable Spherical.pointing0 /\
  CurrentPosition (dither (dither Spherical.pointing0 0.5 103) 24 103.5) =
  idl_to_sky
    (aperture_at (siaf := Spherical.siaf)
       (fst (idl_to_sky (aperture_at (siaf := Spherical.siaf) 80 30 0) 0.5 103))
       (snd (idl_to_sky (aperture_at (siaf := Spherical.siaf) 80 30 0) 0.5 103))
       0)
    24 103.5.
Proof.
  split.
  - apply reachable_init.
  - apply (dither_steps (s := Spherical.pointing0) 0.5 103).
    apply reachable_init.
Defined.

(** ** C3: construction and the range of [dec] *)

(** C3, as stated, fails: [PointWFI(ra=80.0, dec=95.0, roll_angle=0.0)] does
    not raise; it returns an object whose [dec] is [95.0]. *)
Lemma construct_accepts_dec_95 :
  dec_in_range 95 = false /\
  Construct (Some 80%float) (Some 95%float) (Some 0%float)
    = Returned Spherical.pointing95 /\
  Construct (siaf := Spherical.siaf)
    (Some 80%float) (Some 95%float) (Some 0%float)
    <> Raised InvalidArgument /\
  dec Spherical.pointing95 = 95%float.
Proof.
  repeat split.
  discriminate.
Qed.

(** C3, amended: construction validates nothing; for every [ra], [dec] and
    [roll_angle], with [dec] inside or outside [[-90, 90]], it returns an
    object that stores exactly the arguments given (the defaults for the
    omitted ones). *)
Theorem construct_never_fails {siaf : pysiaf.Interface}
    (ra0 dec0 roll0 : option float) :
  exists s : PointWFI siaf,
    Construct ra0 dec0 roll0 = Returned s /\
    ra s = or_default ra0 default_ra /\
    dec s = or_default dec0 default_dec /\
    roll_angle s = or_default roll0 default_roll_angle.
Proof.
  exists (__init__ ra0 dec0 roll0). repeat split.
Qed.

(** ** C4: dither and non-finite offsets *)

(** C4, as stated, fails: [dither(nan, 0)] on [PointWFI()] does not raise;
    it returns and the stored position has changed. *)
Lemma dither_accepts_nan :
  offset_finite nan 0 = false /\
  Dither Spherical.pointing0 nan 0 <> Raised InvalidArgument /\
  exists s' : PointWFI Spherical.siaf,
    Dither Spherical.pointing0 nan 0 = Returned s' /\
    CurrentPosition s' <> CurrentPosition Spherical.pointing0.
Proof.
  split; [reflexivity | split; [discriminate |]].
  exists (dither Spherical.pointing0 nan 0). split; [reflexivity |].
  intros H. apply (f_equal fst) in H. vm_compute in H.
  revert H. float_discriminate.
Qed.

(** C4, amended: [dither] validates nothing; for every state and every
    offset pair, finite or not, it returns, and the whole update is made:
    the stored position is the one the aperture gives for the offset, the
    boresight attributes are rebuilt, the aperture stays anchored at the
    stored position, and [roll_angle] is kept. *)
Theorem dither_never_fails {siaf : pysiaf.Interface}
    (s : PointWFI siaf) (x_offset y_offset : float) :
  exists s' : PointWFI siaf,
    Dither s x_offset y_offset = Returned s' /\
    CurrentPosition s' = idl_to_sky (siaf_aperture s) x_offset y_offset /\
    _attitude_matrix (siaf_aperture s') =
      Some (attitude (v2_ref s) (v3_ref s) (ra s') (dec s') (roll_angle s)) /\
    boresight_consistent s' /\
    roll_angle s' = roll_angle s.
Proof.
  exists (dither s x_offset y_offset).
  split; [reflexivity |].
  split; [apply dither_position |].
  split; [reflexivity |].
  split; [apply boresight_consistent_dither | reflexivity].
Qed.

(** ** C5: reading the position back *)

(** C5: [Construct(ra, dec, roll_angle)] followed by [CurrentPosition]
    returns exactly [(ra, dec)]; after a sequence of dither calls ending
    with [dither(x, y)], [CurrentPosition] returns the [(new_ra, new_dec)]
    that this last call computed. *)
Theorem current_position_latest {siaf : pysiaf.Interface} :
  (forall ra0 dec0 roll0 : float,
     exists s : PointWFI siaf,
       Construct (Some ra0) (Some dec0) (Some roll0) = Returned s /\
       CurrentPosition s = (ra0, dec0)) /\
  (forall (s0 : PointWFI siaf) (offsets : list (float * float))
          (x y : float),
     exists s' : PointWFI siaf,
       Dither (dithers s0 offsets) x y = Returned s' /\
       s' = dithers s0 (offsets ++ [(x, y)]) /\
       CurrentPosition s' =
       idl_to_sky (siaf_aperture (dithers s0 offsets)) x y).
Proof.
  split.
  - intros ra0 dec0 roll0.
    exists (__init__ (Some ra0) (Some dec0) (Some roll0)).
    split; reflexivity.
  - intros s0 offsets x y.
    exists (dither (dithers s0 offsets) x y).
    split; [reflexivity |].
    split; [symmetry; apply dithers_snoc | apply dither_position].
Qed.

(** ** C6: the zero dither *)


(** In exact arithmetic too: at the north pole the position read back is
    [(0, 90)], not the stored [(80, 90)]. *)
Lemma dither_zero_moves_at_exact_pole :
  Exact.CurrentPosition
    (Exact.dither (Exact.__init__ (Some 80%R) (Some 90%R) (Some 0%R)) 0 0)
  <> Exact.CurrentPosition
       (Exact.__init__ (Some 80%R) (Some 90%R) (Some 0%R)).
Proof.
  rewrite exact_dither_zero_pole. unfold Exact.CurrentPosition. simpl.
  intros H. apply (f_equal fst) in H. simpl in H. lra.
Qed.

(** In binary64 the tolerance of [1e-9] degrees is also lost away from the
    pole, in the collaborator of [Spherical]: a third of an arcsecond from
    the pole the declination moves by more than that, and on the meridian
    the right ascension [0] is read back as [360]. *)
Lemma dither_zero_moves_off_pole :
  close 1e-9 (CurrentPosition (dither Spherical.pointing_near_pole 0 0))
             (CurrentPosition Spherical.pointing_near_pole) = false /\
  close 1e-9 (CurrentPosition (dither Spherical.pointing_meridian 0 0))
             (CurrentPosition Spherical.pointing_meridian) = false.
Proof. split; vm_compute; reflexivity. Qed.

(** At the default pointing the binary64 position stays within [1e-9]
    degrees, and at [(100, 20)] it does not move at all. *)
Lemma dither_zero_close_default :
  close 1e-9 (CurrentPosition (dither Spherical.pointing0 0 0))
             (CurrentPosition Spherical.pointing0) = true /\
  CurrentPosition (dither Spherical.pointing100 0 0)
    = CurrentPosition Spherical.pointing100.
Proof. split; vm_compute; reflexivity. Qed.



(** ** C7: order of two dithers *)

(** C7: dither is not commutative.  From [PointWFI()], the offsets
    [(3600, 0)] then [(0, 3600)] and the same offsets in the other order
    lead to positions more than [0.01] degrees apart. *)
Theorem dither_not_commutative :
  exists (s : PointWFI Spherical.siaf) (dx1 dy1 dx2 dy2 : float),
    reachable s /\
    CurrentPosition (dither (dither s dx1 dy1) dx2 dy2)
      <> CurrentPosition (dither (dither s dx2 dy2) dx1 dy1) /\
    close 0.01 (CurrentPosition (dither (dither s dx1 dy1) dx2 dy2))
               (CurrentPosition (dither (dither s dx2 dy2) dx1 dy1)) = false.
Proof.
  exists Spherical.pointing0, 3600%float, 0%float, 0%float, 3600%float.
  split; [apply reachable_init |].
  split.
  - intros H. apply (f_equal fst) in H. vm_compute in H.
    revert H. float_discriminate.
  - vm_compute. reflexivity.
Qed.

(** ** C8: what dither never touches *)

(** C8: after a construction and any sequence of dither calls,
    [roll_angle] is the value given at construction and [v2_ref], [v3_ref]
    are the reference point of the aperture, as at construction; and one
    dither call on any object leaves the three of them as they were. *)
Theorem dither_preserves_roll_and_reference {siaf : pysiaf.Interface} :
  (forall (ra0 dec0 roll0 : option float) (offsets : list (float * float)),
     let s0 := __init__ ra0 dec0 roll0 in
     let s := dithers s0 offsets in
     roll_angle s = or_default roll0 default_roll_angle /\
     roll_angle s = roll_angle s0 /\
     v2_ref s = v2_ref s0 /\
     v3_ref s = v3_ref s0 /\
     v2_ref s = V2Ref Siaf_Roman_WFI_CEN /\
     v3_ref s = V3Ref Siaf_Roman_WFI_CEN) /\
  (forall (s : PointWFI siaf) (x_offset y_offset : float),
     roll_angle (dither s x_offset y_offset) = roll_angle s /\
     v2_ref (dither s x_offset y_offset) = v2_ref s /\
     v3_ref (dither s x_offset y_offset) = v3_ref s).
Proof.
  split.
  - intros ra0 dec0 roll0 offsets s0 s.
    destruct (dithers_frame s0 offsets) as (Hr & Hv2 & Hv3).
    fold s in Hr, Hv2, Hv3.
    rewrite Hr, Hv2, Hv3. repeat split.
  - intros s x_offset y_offset. repeat split.
Qed.

(** ** C9: the boresight attributes *)

(** C9: after a construction and any sequence of dither calls,
    [(tel_ra, tel_dec)] is [tel_to_sky(0, 0)] of the aperture, whose
    attitude is the one anchored at the stored target; the attribute
    [attitude_matrix] is [attitude(0, 0, tel_ra, tel_dec, roll_angle)], a
    matrix of its own and not the one of the aperture; and [tel_roll] is
    [posangle(attitude_matrix, 0, 0)]. *)
Theorem boresight_maintained {siaf : pysiaf.Interface}
    (ra0 dec0 roll0 : option float) (offsets : list (float * float)) :
  let s := dithers (__init__ ra0 dec0 roll0) offsets in
  siaf_aperture s = aperture_at (ra s) (dec s) (roll_angle s) /\
  (tel_ra s, tel_dec s) =
    tel_to_sky (aperture_at (ra s) (dec s) (roll_angle s)) 0 0 /\
  attitude_matrix s = attitude 0 0 (tel_ra s) (tel_dec s) (roll_angle s) /\
  tel_roll s = posangle (attitude_matrix s) 0 0.
Proof.
  intros s.
  assert (Hs : reachable s) by (apply dithers_reachable, reachable_init).
  destruct (reachable_aperture_consistent Hs) as (_ & _ & Hap).
  destruct (reachable_boresight_consistent Hs) as (Htel & Hm & Hroll).
  rewrite Hap in Htel.
  repeat split; assumption.
Qed.

(** ** C10: the defaults *)

(** C10: [PointWFI()] returns an object with [ra = 80.0], [dec = 30.0] and
    [roll_angle = 0.0], and [CurrentPosition] on it is [(80.0, 30.0)]. *)
Theorem construct_defaults {siaf : pysiaf.Interface} :
  exists s : PointWFI siaf,
    Construct None None None = Returned s /\
    ra s = 80%float /\
    dec s = 30%float /\
    roll_angle s = 0%float /\
    CurrentPosition s = (80%float, 30%float).
Proof.
  exists (__init__ None None None). repeat split.
Qed.

(** * Further properties *)

Import Catalog Simulation.
#[local] Open Scope string_scope.

(** ** The object is a function of its three fields *)

(** A reachable object is the one [__post_init__] builds from its own
    [ra], [dec] and [roll_angle]. *)
Lemma reachable_canonical {siaf : pysiaf.Interface} (s : PointWFI siaf) :
  reachable s -> s = __post_init__ (ra s) (dec s) (roll_angle s).
Proof.
  intros Hs.
  destruct (reachable_aperture_consistent Hs) as (Hv2 & Hv3 & Hap).
  destruct (reachable_boresight_consistent Hs) as (Htel & Hm & Hroll).
  destruct s as [ra0 dec0 roll0 ap v2 v3 m tra tdec troll]. simpl in *.
  unfold __post_init__, _update_boresight_position. simpl.
  unfold aperture_at in Hap. subst ap v2 v3.
  rewrite <- Htel. simpl. rewrite <- Hm, <- Hroll. reflexivity.
Qed.

(** X1: an object reached by a construction and any dither calls keeps no
    history: it is the object that [__post_init__] builds from its current
    [ra], [dec] and [roll_angle], so two reachable objects with the same
    position and roll angle are the same object, whatever calls led to
    them. *)
Theorem reachable_no_history {siaf : pysiaf.Interface} (s : PointWFI siaf) :
  reachable s ->
  s = __post_init__ (ra s) (dec s) (roll_angle s) /\
  forall s2 : PointWFI siaf,
    reachable s2 ->
    CurrentPosition s2 = CurrentPosition s ->
    roll_angle s2 = roll_angle s ->
    s2 = s.
Proof.
  intros Hs. split; [apply reachable_canonical, Hs |].
  intros s2 Hs2 Hpos Hroll.
  rewrite (reachable_canonical Hs), (reachable_canonical Hs2).
  unfold CurrentPosition in Hpos. injection Hpos as -> ->.
  rewrite Hroll. reflexivity.
Qed.

Lemma reachable_no_history_witness :
  dither (dither Spherical.pointing0 0 0) 0 0
  = __post_init__ (ra (dither (dither Spherical.pointing0 0 0) 0 0))
                  (dec (dither (dither Spherical.pointing0 0 0) 0 0))
                  (roll_angle (dither (dither Spherical.pointing0 0 0) 0 0)).
Proof.
  apply (proj1 (reachable_no_history
                  (s := dither (dither Spherical.pointing0 0 0) 0 0)
                  (reachable_dither 0 0
                     (reachable_dither 0 0 (reachable_init None None None))))).
Defined.

(** X2: from a reachable object, [dither(x_offset, y_offset)] leaves exactly
    the object that a fresh construction at the new position with the same
    roll angle returns. *)
Theorem dither_is_construction {siaf : pysiaf.Interface}
    (s : PointWFI siaf) (x_offset y_offset : float) :
  reachable s ->
  let new_sky := idl_to_sky (siaf_aperture s) x_offset y_offset in
  Dither s x_offset y_offset
  = Construct (Some (fst new_sky)) (Some (snd new_sky)) (Some (roll_angle s)).
Proof.
  intros Hs new_sky. unfold Dither, Construct, __init__. simpl. f_equal.
  rewrite (reachable_canonical (reachable_dither x_offset y_offset Hs)).
  reflexivity.
Qed.

Lemma dither_is_construction_witness :
  Dither Spherical.pointing0 0.5 103
  = Construct
      (Some (fst (idl_to_sky (siaf_aperture Spherical.pointing0) 0.5 103)))
      (Some (snd (idl_to_sky (siaf_aperture Spherical.pointing0) 0.5 103)))
      (Some (roll_angle Spherical.pointing0)).
Proof.
  apply (dither_is_construction (s := Spherical.pointing0) 0.5 103).
  apply reachable_init.
Defined.

(** ** Rejecting catalog entries: boolean indexing *)

Lemma compress_length_le {A} (k : list bool) (l : list A) :
  List.length (compress k l) <= List.length l.
Proof.
  revert l. induction k as [| b k IH]; intros [| x l]; simpl; try lia.
  destruct b; simpl; specialize (IH l); lia.
Qed.

Lemma compress_map {A B} (f : A -> B) (k : list bool) (l : list A) :
  compress k (map f l) = map f (compress k l).
Proof.
  revert l. induction k as [| b k IH]; intros [| x l]; simpl; try reflexivity.
  destruct b; simpl; rewrite IH; reflexivity.
Qed.

Lemma compress_zip_with f (k a b : list bool) :
  List.length a = List.length b ->
  compress k (zip_with f a b) = zip_with f (compress k a) (compress k b).
Proof.
  revert a b. induction k as [| x k IH]; intros [| u a] [| v b] H;
    simpl in *; try reflexivity; try discriminate.
  injection H as H. destruct x; simpl; rewrite IH by exact H; reflexivity.
Qed.

Lemma compress_compress {A} (k1 k2 : list bool) (l : list A) :
  List.length k1 = List.length k2 -> List.length k1 = List.length l ->
  compress (compress k1 k2) (compress k1 l) = compress (zip_with andb k1 k2) l.
Proof.
  revert k2 l. induction k1 as [| x k1 IH]; intros [| y k2] [| u l] H1 H2;
    simpl in *; try reflexivity; try discriminate.
  injection H1 as H1. injection H2 as H2.
  destruct x; simpl.
  - destruct y; simpl; rewrite IH by assumption; reflexivity.
  - apply IH; assumption.
Qed.

Lemma zip_with_length f (a b : list bool) :
  List.length a = List.length b ->
  List.length (zip_with f a b) = List.length a.
Proof.
  revert b. induction a as [| x a IH]; intros [| y b] H; simpl in *;
    try reflexivity; try discriminate.
  injection H as H. rewrite IH by exact H. reflexivity.
Qed.

Lemma invert_length (a : list bool) : List.length (invert a) = List.length a.
Proof. apply length_map. Qed.

Lemma compress_all_true {A} (l : list A) :
  compress (repeat true (List.length l)) l = l.
Proof. induction l as [| x l IH]; simpl; [| rewrite IH]; reflexivity. Qed.

Lemma getitem_take_rows (t : Table) (k : list bool) (b : string) :
  getitem (take_rows t k) b = option_map (take k) (getitem t b).
Proof.
  induction t as [| [n c] t IH]; simpl; [reflexivity |].
  destruct (String.eqb n b); [reflexivity | exact IH].
Qed.

Lemma colnames_take_rows (t : Table) (k : list bool) :
  colnames (take_rows t k) = colnames t.
Proof.
  unfold colnames, take_rows. rewrite map_map. reflexivity.
Qed.

Lemma reject_loop_step (b : string) (names : list string) (bad0 : list bool)
    (g : Table) :
  reject_loop (b :: names) bad0 g =
  match getitem g b with
  | None => Failed (KeyError b) g
  | Some c =>
      match column_bad c with
      | None => Failed TypeError g
      | Some bad => reject_loop names bad (take_rows g (invert bad))
      end
  end.
Proof.
  simpl. destruct (getitem g b) as [c |]; [| reflexivity].
  unfold column_bad. destruct (isfinite c); reflexivity.
Qed.

Lemma column_bad_length (n : nat) (c : Column) (bad : list bool) :
  column_rows n c -> column_bad c = Some bad -> List.length bad = n.
Proof.
  intros [Hd Hm]. unfold column_bad, isfinite.
  destruct (data c) as [l | l]; [| discriminate].
  simpl in Hd. intros H. injection H as <-.
  destruct (mask c) as [m |].
  - unfold bitwise_or. rewrite zip_with_length;
      rewrite invert_length, length_map; congruence.
  - rewrite invert_length, length_map. exact Hd.
Qed.

Lemma column_bad_take (n : nat) (k : list bool) (c : Column) :
  column_rows n c ->
  column_bad (take k c) = option_map (compress k) (column_bad c).
Proof.
  intros [Hd Hm]. unfold column_bad, isfinite, take. simpl.
  destruct (data c) as [l | l]; simpl; [| reflexivity].
  simpl in Hd. f_equal.
  destruct (mask c) as [m |]; simpl.
  - unfold bitwise_or, invert.
    rewrite compress_zip_with by (rewrite !length_map; congruence).
    rewrite <- !compress_map. reflexivity.
  - unfold invert. rewrite <- !compress_map. reflexivity.
Qed.

Lemma take_take (n : nat) (k1 k2 : list bool) (c : Column) :
  column_rows n c -> List.length k1 = n -> List.length k2 = n ->
  take (compress k1 k2) (take k1 c) = take (zip_with andb k1 k2) c.
Proof.
  intros [Hd Hm] H1 H2. unfold take. simpl. f_equal.
  - destruct (data c) as [l | l]; simpl in *;
      rewrite compress_compress by congruence; reflexivity.
  - destruct (mask c) as [m |]; simpl; [| reflexivity].
    rewrite compress_compress by congruence. reflexivity.
Qed.

Lemma take_rows_take_rows (n : nat) (k1 k2 : list bool) (t : Table) :
  rows n t -> List.length k1 = n -> List.length k2 = n ->
  take_rows (take_rows t k1) (compress k1 k2)
  = take_rows t (zip_with andb k1 k2).
Proof.
  intros Ht H1 H2. unfold take_rows. rewrite map_map.
  apply map_ext_in. intros [b c] Hin. simpl. f_equal.
  unfold rows in Ht. rewrite Forall_forall in Ht.
  apply (@take_take n k1 k2 c); [exact (Ht _ Hin) | assumption | assumption].
Qed.

Lemma getitem_rows (n : nat) (t : Table) (b : string) (c : Column) :
  rows n t -> getitem t b = Some c -> column_rows n c.
Proof.
  unfold rows. induction t as [| [m c'] t IH]; simpl; [discriminate |].
  intros Ht H. inversion Ht as [| ? ? Hc Ht']; subst.
  destruct (String.eqb m b).
  - injection H as <-. exact Hc.
  - apply IH; assumption.
Qed.

(** The loop, run on the catalog thinned by [k], against the original. *)
Lemma reject_loop_finished (n : nat) (t : Table) (names : list string) :
  rows n t ->
  forall (k bad0 bad : list bool) (t' : Table),
    List.length k = n ->
    reject_loop names bad0 (take_rows t k) = Finished bad t' ->
    exists K, keep_rows t names k = Some K /\ List.length K = n /\
              t' = take_rows t K.
Proof.
  intros Ht. induction names as [| b names IH]; intros k bad0 bad t' Hk Hrun.
  - simpl in Hrun. injection Hrun as _ <-. exists k. repeat split. exact Hk.
  - rewrite reject_loop_step, getitem_take_rows in Hrun. simpl.
    destruct (getitem t b) as [c |] eqn:Hget; simpl in Hrun; [| discriminate].
    assert (Hc : column_rows n c) by (eapply getitem_rows; eassumption).
    rewrite (@column_bad_take n k c Hc) in Hrun.
    destruct (column_bad c) as [bad1 |] eqn:Hbad; simpl in Hrun;
      [| discriminate].
    pose proof (@column_bad_length n c bad1 Hc Hbad) as Hlen.
    unfold invert in Hrun. rewrite <- compress_map in Hrun.
    rewrite (@take_rows_take_rows n k (map negb bad1) t Ht Hk) in Hrun
      by (rewrite length_map; exact Hlen).
    apply IH in Hrun; [exact Hrun |].
    rewrite zip_with_length; [exact Hk |].
    rewrite length_map. congruence.
Qed.

Lemma take_all_true (n : nat) (c : Column) :
  column_rows n c -> take (repeat true n) c = c.
Proof.
  intros [Hd Hm]. destruct c as [d m]. unfold take. simpl in *. f_equal.
  - destruct d as [l | l]; simpl in *; rewrite <- Hd;
      rewrite compress_all_true; reflexivity.
  - destruct m as [m |]; simpl; [| reflexivity].
    rewrite <- Hm, compress_all_true. reflexivity.
Qed.

Lemma take_rows_all_true (n : nat) (t : Table) :
  rows n t -> take_rows t (repeat true n) = t.
Proof.
  unfold rows, take_rows. induction 1 as [| [b c] t Hc Ht IH]; simpl.
  - reflexivity.
  - simpl in Hc. rewrite (@take_all_true n c Hc), IH. reflexivity.
Qed.

Lemma compress_length (A : Type) (k : list bool) (l : list A) :
  List.length k = List.length l ->
  List.length (compress k l) = List.length (filter (fun x => x) k).
Proof.
  revert l. induction k as [| x k IH]; intros [| u l] H; simpl in *;
    try reflexivity; try discriminate.
  injection H as H. destruct x; simpl; rewrite IH by exact H; reflexivity.
Qed.

Lemma column_rows_take (n : nat) (k : list bool) (c : Column) :
  column_rows n c -> List.length k = n ->
  column_rows (List.length (filter (fun x => x) k)) (take k c).
Proof.
  intros [Hd Hm] Hk. unfold column_rows, take. simpl. split.
  - destruct (data c) as [l | l]; simpl in *;
      apply compress_length; congruence.
  - destruct (mask c) as [m |]; simpl; [| exact I].
    apply compress_length. congruence.
Qed.

Lemma rows_take_rows (n : nat) (k : list bool) (t : Table) :
  rows n t -> List.length k = n ->
  rows (List.length (filter (fun x => x) k)) (take_rows t k).
Proof.
  unfold rows, take_rows. intros Ht Hk. rewrite Forall_map.
  eapply Forall_impl; [| exact Ht].
  intros [b c] Hc. simpl in *. apply (@column_rows_take n k c); assumption.
Qed.

Lemma rows_len (n : nat) (t : Table) :
  rows n t -> t <> [] -> len t = n.
Proof.
  intros Ht Hne. destruct t as [| [b c] t]; [congruence |].
  inversion Ht as [| x l Hc Ht']; subst. destruct Hc as [Hd _]. exact Hd.
Qed.

Lemma rows_rectangular (n : nat) (t : Table) : rows n t -> rectangular t.
Proof.
  intros Ht. unfold rectangular. destruct t as [| [b c] t].
  - constructor.
  - rewrite (@rows_len n ((b, c) :: t) Ht); [exact Ht | discriminate].
Qed.

(** *** Rows of a mask *)

Lemma nth_zip_with (f : bool -> bool -> bool) (d : bool) (a b : list bool)
    (i : nat) :
  List.length a = List.length b -> i < List.length a ->
  nth i (zip_with f a b) d = f (nth i a d) (nth i b d).
Proof.
  revert b i. induction a as [| x a IH]; intros [| y b] i H Hi; simpl in *;
    try lia; try discriminate.
  injection H as H. destruct i as [| i]; [reflexivity |].
  apply IH; [exact H | lia].
Qed.

Lemma nth_invert (a : list bool) (i : nat) :
  nth i (invert a) false = negb (nth i a true).
Proof. unfold invert. change false with (negb true). apply map_nth. Qed.

Lemma column_bad_nth (n : nat) (c : Column) (bad : list bool) (i : nat) :
  column_rows n c -> column_bad c = Some bad -> i < n ->
  nth i bad true = negb (value_ok c i).
Proof.
  intros [Hd Hm]. unfold column_bad, isfinite, value_ok.
  destruct (data c) as [l | l]; [| discriminate].
  simpl in Hd. intros H Hi. injection H as <-.
  assert (Hfin : nth i (invert (map is_finite l)) true
                 = negb (is_finite (nth i l nan))).
  { unfold invert. rewrite map_map.
    rewrite (nth_indep _ true (negb (is_finite nan)))
      by (rewrite length_map; lia).
    apply (map_nth (fun v => negb (is_finite v))). }
  destruct (mask c) as [m |].
  - unfold bitwise_or.
    rewrite nth_zip_with
      by (rewrite invert_length, length_map; congruence || lia).
    rewrite Hfin. rewrite negb_andb, negb_involutive. reflexivity.
  - rewrite Hfin, andb_true_r. reflexivity.
Qed.

Lemma keep_rows_spec (n : nat) (t : Table) (names : list string) :
  rows n t ->
  forall acc K : list bool,
    List.length acc = n ->
    keep_rows t names acc = Some K ->
    List.length K = n /\
    forall i : nat, i < n ->
      (nth i K false = true <->
       nth i acc false = true /\
       forall b, In b names ->
         exists c, getitem t b = Some c /\ value_ok c i = true).
Proof.
  intros Ht. induction names as [| b names IH]; intros acc K Hacc HK.
  - simpl in HK. injection HK as <-. split; [exact Hacc |].
    intros i Hi. split.
    + intros H. split; [exact H | intros b []].
    + intros [H _]. exact H.
  - simpl in HK.
    destruct (getitem t b) as [c |] eqn:Hget; [| discriminate].
    destruct (column_bad c) as [bad |] eqn:Hbad; [| discriminate].
    assert (Hc : column_rows n c) by (eapply getitem_rows; eassumption).
    pose proof (@column_bad_length n c bad Hc Hbad) as Hlen.
    apply IH in HK;
      [| rewrite zip_with_length; [exact Hacc |];
         rewrite invert_length; congruence].
    destruct HK as [HlenK HK]. split; [exact HlenK |].
    intros i Hi. rewrite (HK i Hi).
    rewrite nth_zip_with
      by (rewrite ?invert_length; congruence || lia).
    rewrite nth_invert, (@column_bad_nth n c bad i Hc Hbad Hi).
    rewrite negb_involutive, andb_true_iff.
    split.
    + intros [[Ha Hv] Hrest]. split; [exact Ha |].
      intros b' [<- | Hin]; [exists c; split; assumption | apply Hrest, Hin].
    + intros [Ha Hall]. split; [split; [exact Ha |] |].
      * destruct (Hall b (or_introl eq_refl)) as (c' & Hget' & Hv).
        rewrite Hget in Hget'. injection Hget' as <-. exact Hv.
      * intros b' Hin. apply Hall. right. exact Hin.
Qed.

(** *** Clean columns *)

Lemma Forall_false_zip_orb (a m : list bool) :
  List.length a = List.length m ->
  Forall (fun x => x = false) (zip_with orb a m) ->
  Forall (fun x => x = false) a /\ Forall (fun x => x = false) m.
Proof.
  revert m. induction a as [| x a IH]; intros [| y m] H HF; simpl in *;
    try discriminate.
  - split; constructor.
  - injection H as H. inversion HF as [| ? ? Hxy HF']; subst.
    apply orb_false_iff in Hxy. destruct Hxy as [-> ->].
    destruct (IH m H HF') as [Ha Hm]. split; constructor; auto.
Qed.

Lemma Forall_false_invert_finite (l : list float) :
  Forall (fun x => x = false) (invert (map is_finite l)) ->
  Forall (fun v => is_finite v = true) l.
Proof.
  induction l as [| v l IH]; simpl; intros H; constructor;
    inversion H as [| ? ? Hv H']; subst.
  - apply negb_false_iff. exact Hv.
  - apply IH. exact H'.
Qed.

Lemma column_bad_clean (n : nat) (c : Column) (bad : list bool) :
  column_rows n c -> column_bad c = Some bad ->
  Forall (fun x => x = false) bad -> clean c.
Proof.
  intros [Hd Hm]. unfold column_bad, isfinite, clean.
  destruct (data c) as [l | l]; [| discriminate].
  simpl in Hd. intros H HF. injection H as <-.
  destruct (mask c) as [m |].
  - apply Forall_false_zip_orb in HF;
      [| rewrite invert_length, length_map; congruence].
    destruct HF as [Ha Hmask]. split; [| exact Hmask].
    exists l. split; [reflexivity |].
    apply Forall_false_invert_finite. exact Ha.
  - split; [| exact I]. exists l. split; [reflexivity |].
    apply Forall_false_invert_finite. exact HF.
Qed.

Lemma zip_orb_repeat_false (n : nat) (m : list bool) :
  List.length m = n -> Forall (fun x => x = false) m ->
  zip_with orb (repeat false n) m = repeat false n.
Proof.
  revert n. induction m as [| y m IH]; intros [| n] H HF; simpl in *;
    try discriminate; try reflexivity.
  injection H as H. inversion HF as [| ? ? Hy HF']; subst.
  rewrite IH by (assumption || reflexivity). reflexivity.
Qed.

Lemma invert_finite_all (l : list float) :
  Forall (fun v => is_finite v = true) l ->
  invert (map is_finite l) = repeat false (List.length l).
Proof.
  induction 1 as [| v l Hv Hl IH]; simpl; [reflexivity |].
  rewrite Hv. simpl. f_equal. exact IH.
Qed.

Lemma clean_column_bad (n : nat) (c : Column) :
  column_rows n c -> clean c -> column_bad c = Some (repeat false n).
Proof.
  intros [Hd Hm] [(l & Hl & Hfin) Hmask]. unfold column_bad, isfinite.
  rewrite Hl in *. simpl in Hd. f_equal.
  rewrite (invert_finite_all Hfin), Hd.
  destruct (mask c) as [m |]; [| reflexivity].
  apply zip_orb_repeat_false; assumption.
Qed.

Lemma invert_repeat_false (n : nat) : invert (repeat false n) = repeat true n.
Proof. induction n as [| n IH]; simpl; [| rewrite IH]; reflexivity. Qed.

Lemma Forall_compress_false (K bad : list bool) :
  List.length K = List.length bad ->
  (forall i, i < List.length K ->
             nth i K false = true -> nth i bad true = false) ->
  Forall (fun x => x = false) (compress K bad).
Proof.
  revert bad. induction K as [| k K IH]; intros [| x bad] H Hall;
    simpl in *; try discriminate; [constructor |].
  injection H as H.
  assert (Hrest : Forall (fun x => x = false) (compress K bad)).
  { apply IH; [exact H |]. intros i Hi Hk. apply (Hall (S i)); [lia | exact Hk]. }
  destruct k; [| exact Hrest].
  constructor; [| exact Hrest].
  apply (Hall 0); [lia | reflexivity].
Qed.

(** *** Names *)

Lemma field_name_flux (i : nat) (name : string) :
  first_is_F (field_name i name) = true -> field_name i name = name.
Proof. destruct name as [| c name]; [discriminate | reflexivity]. Qed.

Lemma flux_names_In (i : nat) (cs : list string) (b : string) :
  In b (flux_names (field_names i cs)) -> In b cs.
Proof.
  unfold flux_names. revert i. induction cs as [| f cs IH]; intros i Hin.
  - destruct Hin.
  - simpl in Hin.
    destruct (first_is_F (field_name i f)) eqn:HF.
    + destruct Hin as [<- | Hin].
      * left. symmetry. apply field_name_flux, HF.
      * right. apply (IH (S i)), Hin.
    + right. apply (IH (S i)), Hin.
Qed.

Lemma dtype_names_In (t : Table) (names : list string) (b : string) :
  dtype_names t = Some names -> In b (flux_names names) -> In b (colnames t).
Proof.
  unfold dtype_names.
  destruct (distinct (field_names 0 (colnames t))); [| discriminate].
  intros H. injection H as <-. apply flux_names_In.
Qed.

Lemma dtype_names_take_rows (t : Table) (k : list bool) :
  dtype_names (take_rows t k) = dtype_names t.
Proof. unfold dtype_names. rewrite colnames_take_rows. reflexivity. Qed.

Lemma getitem_In (t : Table) (b : string) :
  In b (colnames t) -> exists c, getitem t b = Some c.
Proof.
  induction t as [| [n c] t IH]; simpl; [intros [] |].
  destruct (String.eqb_spec n b) as [-> | Hne].
  - intros _. exists c. reflexivity.
  - intros [H | H]; [contradiction | apply IH, H].
Qed.

Lemma nth_repeat_true (n i : nat) : i < n -> nth i (repeat true n) false = true.
Proof.
  revert i. induction n as [| n IH]; intros [| i] H; simpl;
    try reflexivity; try lia.
  apply IH. lia.
Qed.

Lemma keep_rows_columns (t : Table) (names : list string) :
  forall (acc K : list bool) (b : string),
    keep_rows t names acc = Some K -> In b names ->
    exists c bad, getitem t b = Some c /\ column_bad c = Some bad.
Proof.
  induction names as [| b0 names IH]; intros acc K b HK Hin; [destruct Hin |].
  simpl in HK.
  destruct (getitem t b0) as [c |] eqn:Hget; [| discriminate].
  destruct (column_bad c) as [bad |] eqn:Hbad; [| discriminate].
  destruct Hin as [<- | Hin].
  - exists c, bad. split; assumption.
  - eapply IH; eassumption.
Qed.

(** A finished run, against the original catalog. *)
Lemma reject_missing_finished (t t' : Table) (bad : list bool) :
  rectangular t ->
  reject_missing t = Finished bad t' ->
  exists names K,
    checked_names t = Some names /\
    keep_rows t names (repeat true (len t)) = Some K /\
    List.length K = len t /\
    t' = take_rows t K.
Proof.
  intros Ht Hrun. unfold reject_missing in Hrun. unfold checked_names.
  destruct (dtype_names t) as [names |]; [| discriminate].
  exists (flux_names names ++ ["ra"; "dec"])%list.
  rewrite <- (@take_rows_all_true (len t) t Ht) in Hrun at 2.
  apply (@reject_loop_finished (len t) t _ Ht) in Hrun;
    [| apply repeat_length].
  destruct Hrun as (K & HK & Hlen & ->).
  exists K. repeat split; assumption.
Qed.

(** The columns a finished run has checked are clean in its result. *)
Lemma kept_column_clean (t : Table) (names : list string) (K : list bool)
    (b : string) :
  rectangular t ->
  keep_rows t names (repeat true (len t)) = Some K ->
  List.length K = len t ->
  In b names ->
  exists c, getitem (take_rows t K) b = Some c /\ clean c.
Proof.
  intros Ht HK Hlen Hin.
  destruct (@keep_rows_columns t names _ K b HK Hin)
    as (c & badc & Hget & Hbad).
  assert (Hc : column_rows (len t) c) by (eapply getitem_rows; eassumption).
  exists (take K c). split; [rewrite getitem_take_rows, Hget; reflexivity |].
  apply (@column_bad_clean _ (take K c) (compress K badc)
           (@column_rows_take (len t) K c Hc Hlen)).
  - rewrite (@column_bad_take (len t) K c Hc), Hbad. reflexivity.
  - pose proof (@column_bad_length (len t) c badc Hc Hbad) as Hlb.
    apply Forall_compress_false; [congruence |].
    intros i Hi HKi. rewrite Hlen in Hi.
    rewrite (@column_bad_nth (len t) c badc i Hc Hbad Hi).
    apply negb_false_iff.
    destruct (@keep_rows_spec (len t) t names Ht _ K
                (repeat_length true (len t)) HK) as [_ Hspec].
    destruct (proj1 (Hspec i Hi) HKi) as [_ Hall].
    destruct (Hall b Hin) as (c' & Hget' & Hv).
    rewrite Hget in Hget'. injection Hget' as <-. exact Hv.
Qed.

Lemma take_rows_len_le (n : nat) (t : Table) (K : list bool) :
  rows n t -> List.length K = n -> len (take_rows t K) <= len t.
Proof.
  intros Ht HK. destruct t as [| [b c] t]; [simpl; lia |].
  inversion Ht as [| x l Hc Ht']; subst. simpl in Hc. destruct Hc as [Hd Hm].
  simpl. destruct (data c) as [l | l]; simpl in *;
    (etransitivity; [apply compress_length_le | lia]).
Qed.

(** The loop changes nothing when the columns it checks are clean. *)
Lemma reject_loop_clean (n : nat) (t : Table) (names : list string) :
  rows n t ->
  (forall b, In b names -> exists c, getitem t b = Some c /\ clean c) ->
  forall bad0, exists bad, reject_loop names bad0 t = Finished bad t.
Proof.
  intros Ht. induction names as [| b names IH]; intros Hall bad0.
  - exists bad0. reflexivity.
  - destruct (Hall b (or_introl eq_refl)) as (c & Hget & Hclean).
    assert (Hc : column_rows n c) by (eapply getitem_rows; eassumption).
    rewrite reject_loop_step, Hget, (@clean_column_bad n c Hc Hclean).
    rewrite invert_repeat_false, (@take_rows_all_true n t Ht).
    apply IH. intros b' Hin. apply Hall. right. exact Hin.
Qed.

(** A failed run, against the original catalog. *)
Lemma reject_loop_failed (n : nat) (t : Table) (names : list string) :
  rows n t ->
  forall (k bad0 : list bool) (e : pyexn) (t' : Table),
    List.length k = n ->
    reject_loop names bad0 (take_rows t k) = Failed e t' ->
    (exists K, List.length K = n /\ t' = take_rows t K) /\
    match e with
    | KeyError b => In b names /\ getitem t b = None
    | TypeError =>
        exists b c l, In b names /\ getitem t b = Some c /\ data c = Strings l
    | ValueError => False
    end.
Proof.
  intros Ht. induction names as [| b names IH]; intros k bad0 e t' Hk Hrun.
  - discriminate Hrun.
  - rewrite reject_loop_step, getitem_take_rows in Hrun.
    destruct (getitem t b) as [c |] eqn:Hget; simpl in Hrun.
    + assert (Hc : column_rows n c) by (eapply getitem_rows; eassumption).
      rewrite (@column_bad_take n k c Hc) in Hrun.
      destruct (column_bad c) as [bad1 |] eqn:Hbad; simpl in Hrun.
      * pose proof (@column_bad_length n c bad1 Hc Hbad) as Hlen.
        unfold invert in Hrun. rewrite <- compress_map in Hrun.
        rewrite (@take_rows_take_rows n k (map negb bad1) t Ht Hk) in Hrun
          by (rewrite length_map; exact Hlen).
        apply IH in Hrun;
          [| rewrite zip_with_length; [exact Hk |];
             rewrite length_map; congruence].
        destruct Hrun as [HK He]. split; [exact HK |].
        destruct e as [b' | |].
        -- destruct He as [Hin Hnone]. split; [right; exact Hin | exact Hnone].
        -- exact He.
        -- destruct He as (b' & c' & l & Hin & Hget' & Hl).
           exists b', c', l. repeat split; [right; exact Hin | assumption ..].
      * injection Hrun as <- <-. split; [exists k; split; [exact Hk | reflexivity] |].
        unfold column_bad, isfinite in Hbad.
        destruct (data c) as [l | l] eqn:Hl; [discriminate |].
        exists b, c, l. repeat split; [left; reflexivity | assumption ..].
    + injection Hrun as <- <-.
      split; [exists k; split; [exact Hk | reflexivity] |].
      split; [left; reflexivity | exact Hget].
Qed.

(** ** Rejecting catalog entries: the cell *)

(** X3: when the cell finishes on a rectangular catalog, the catalog it
    leaves is the original indexed once by a boolean array [K]: row [i] is
    kept exactly when, in every flux column and in [ra] and [dec], its
    entry is a finite float that is not masked; the rows kept stay in
    order and the other columns follow. *)
Theorem reject_missing_rows (t t' : Table) (bad : list bool) :
  rectangular t ->
  reject_missing t = Finished bad t' ->
  exists names K,
    checked_names t = Some names /\
    List.length K = len t /\
    t' = take_rows t K /\
    forall i : nat, i < len t ->
      (nth i K false = true <->
       forall b, In b names ->
         exists c, getitem t b = Some c /\ value_ok c i = true).
Proof.
  intros Ht Hrun.
  destruct (reject_missing_finished Ht Hrun)
    as (names & K & Hn & HK & Hlen & ->).
  exists names, K.
  split; [exact Hn |]. split; [exact Hlen |]. split; [reflexivity |].
  destruct (@keep_rows_spec (len t) t names Ht _ K
              (repeat_length true (len t)) HK) as [_ Hspec].
  intros i Hi. rewrite (Hspec i Hi). split.
  - intros [_ Hall]. exact Hall.
  - intros Hall. split; [apply nth_repeat_true, Hi | exact Hall].
Qed.

Lemma gaia_demo_rectangular : rectangular gaia_demo.
Proof. repeat constructor. Qed.

Lemma gaia_demo_kept_rectangular : rectangular gaia_demo_kept.
Proof. repeat constructor. Qed.

Lemma gaia_no_ra_rectangular : rectangular gaia_no_ra.
Proof. repeat constructor. Qed.

Lemma reject_missing_rows_witness :
  exists names K,
    checked_names gaia_demo = Some names /\
    List.length K = len gaia_demo /\
    gaia_demo_kept = take_rows gaia_demo K /\
    forall i : nat, i < len gaia_demo ->
      (nth i K false = true <->
       forall b, In b names ->
         exists c, getitem gaia_demo b = Some c /\ value_ok c i = true).
Proof.
  apply (@reject_missing_rows gaia_demo gaia_demo_kept [false; true]).
  - exact gaia_demo_rectangular.
  - vm_compute. reflexivity.
Defined.

(** X4: when the cell finishes on a rectangular catalog, the catalog it
    leaves is rectangular, has the same columns and no more rows, and every
    flux column and [ra] and [dec] hold only finite floats, none masked. *)
Theorem reject_missing_clean (t t' : Table) (bad : list bool) :
  rectangular t ->
  reject_missing t = Finished bad t' ->
  rectangular t' /\
  colnames t' = colnames t /\
  len t' <= len t /\
  exists names,
    checked_names t' = Some names /\
    forall b, In b names -> exists c, getitem t' b = Some c /\ clean c.
Proof.
  intros Ht Hrun.
  destruct (reject_missing_finished Ht Hrun)
    as (names & K & Hn & HK & Hlen & ->).
  pose proof (@rows_take_rows (len t) K t Ht Hlen) as Hrows'.
  split; [eapply rows_rectangular, Hrows' |].
  split; [apply colnames_take_rows |].
  split; [apply (@take_rows_len_le (len t) t K Ht Hlen) |].
  exists names. split.
  - unfold checked_names in *. rewrite dtype_names_take_rows. exact Hn.
  - intros b Hin. apply (@kept_column_clean t names K b Ht HK Hlen Hin).
Qed.

Lemma reject_missing_clean_witness :
  rectangular gaia_demo_kept /\
  colnames gaia_demo_kept = colnames gaia_demo /\
  len gaia_demo_kept <= len gaia_demo /\
  exists names,
    checked_names gaia_demo_kept = Some names /\
    forall b, In b names ->
      exists c, getitem gaia_demo_kept b = Some c /\ clean c.
Proof.
  apply (@reject_missing_clean gaia_demo gaia_demo_kept [false; true]).
  - exact gaia_demo_rectangular.
  - vm_compute. reflexivity.
Defined.

(** X5: a rectangular catalog whose flux columns, [ra] and [dec] hold only
    finite floats, none masked, goes through the cell unchanged. *)
Theorem reject_missing_noop (t : Table) (names : list string) :
  rectangular t ->
  checked_names t = Some names ->
  (forall b, In b names -> exists c, getitem t b = Some c /\ clean c) ->
  exists bad, reject_missing t = Finished bad t.
Proof.
  intros Ht Hn Hall. unfold reject_missing. unfold checked_names in Hn.
  destruct (dtype_names t) as [ns |]; [| discriminate].
  injection Hn as <-.
  apply (@reject_loop_clean (len t) t _ Ht Hall).
Qed.

Lemma gaia_demo_kept_clean (b : string) :
  In b ["F062"; "F158"; "ra"; "dec"] ->
  exists c, getitem gaia_demo_kept b = Some c /\ clean c.
Proof.
  intros [<- | [<- | [<- | [<- | []]]]]; eexists;
    (split; [reflexivity |]);
    (split; [eexists; split; [reflexivity | repeat constructor]
            | simpl; repeat constructor]).
Qed.

Lemma reject_missing_noop_witness :
  exists bad, reject_missing gaia_demo_kept = Finished bad gaia_demo_kept.
Proof.
  apply (@reject_missing_noop gaia_demo_kept ["F062"; "F158"; "ra"; "dec"]).
  - exact gaia_demo_kept_rectangular.
  - vm_compute. reflexivity.
  - exact gaia_demo_kept_clean.
Defined.

(** X6: running the cell a second time changes nothing: on the catalog that
    a finished run leaves, the cell finishes again and leaves the same
    catalog. *)
Theorem reject_missing_idempotent (t t' : Table) (bad : list bool) :
  rectangular t ->
  reject_missing t = Finished bad t' ->
  exists bad', reject_missing t' = Finished bad' t'.
Proof.
  intros Ht Hrun.
  destruct (reject_missing_finished Ht Hrun)
    as (names & K & Hn & HK & Hlen & ->).
  pose proof (@rows_take_rows (len t) K t Ht Hlen) as Hrows'.
  unfold reject_missing. rewrite dtype_names_take_rows.
  unfold checked_names in Hn.
  destruct (dtype_names t) as [ns |]; [| discriminate].
  injection Hn as <-.
  apply (@reject_loop_clean _ (take_rows t K) _ Hrows').
  intros b Hin. apply (@kept_column_clean t _ K b Ht HK Hlen Hin).
Qed.

Lemma reject_missing_idempotent_witness :
  exists bad', reject_missing gaia_demo_kept = Finished bad' gaia_demo_kept.
Proof.
  apply (@reject_missing_idempotent gaia_demo gaia_demo_kept [false; true]).
  - exact gaia_demo_rectangular.
  - vm_compute. reflexivity.
Defined.

(** X7: when the cell fails on a rectangular catalog, the catalog it leaves
    is the original with some rows removed (the rows rejected before the
    failure stay rejected), and the exception tells why: [ValueError] when
    two fields of the dtype get the same name, the catalog being then
    untouched; [KeyError] only for [ra] or [dec], when that column is
    absent; [TypeError] when a checked column holds strings.  An empty
    column name raises nothing: its field is named [f<i>] and is not taken
    for a flux column. *)
Theorem reject_missing_failure (t t' : Table) (e : pyexn) :
  rectangular t ->
  reject_missing t = Failed e t' ->
  (exists K, List.length K = len t /\ t' = take_rows t K) /\
  match e with
  | ValueError => distinct (field_names 0 (colnames t)) = false /\ t' = t
  | KeyError k => (k = "ra" \/ k = "dec") /\ getitem t k = None
  | TypeError =>
      exists names b c l,
        checked_names t = Some names /\ In b names /\
        getitem t b = Some c /\ data c = Strings l
  end.
Proof.
  intros Ht Hrun. unfold reject_missing in Hrun. unfold checked_names.
  destruct (dtype_names t) as [names |] eqn:Hnames.
  - rewrite <- (@take_rows_all_true (len t) t Ht) in Hrun at 2.
    apply (@reject_loop_failed (len t) t _ Ht) in Hrun;
      [| apply repeat_length].
    destruct Hrun as [HK He]. split; [exact HK |].
    destruct e as [k | |].
    + destruct He as [Hin Hnone]. split; [| exact Hnone].
      apply in_app_or in Hin. destruct Hin as [Hin | [<- | [<- | []]]]; auto.
      apply (@dtype_names_In t names k Hnames), getitem_In in Hin.
      destruct Hin as [c Hc]. congruence.
    + destruct He.
    + destruct He as (b & c & l & Hin & Hget & Hl).
      exists (flux_names names ++ ["ra"; "dec"])%list, b, c, l.
      repeat split; assumption.
  - injection Hrun as <- <-.
    split.
    + exists (repeat true (len t)). split; [apply repeat_length |].
      symmetry. apply (@take_rows_all_true (len t) t Ht).
    + split; [| reflexivity].
      unfold dtype_names in Hnames.
      destruct (distinct (field_names 0 (colnames t)));
        [discriminate | reflexivity].
Qed.

(** A column with the empty name is passed over: the cell goes on to the
    positions, and fails on the missing [dec]. *)
Lemma reject_missing_unnamed_column :
  dtype_names gaia_unnamed = Some ["f0"; "ra"] /\
  reject_missing gaia_unnamed = Failed (KeyError "dec") gaia_unnamed.
Proof. split; vm_compute; reflexivity. Qed.

Lemma reject_missing_failure_witness :
  (exists K, List.length K = len gaia_no_ra /\
             gaia_no_ra_left = take_rows gaia_no_ra K) /\
  ("ra" = "ra" \/ "ra" = "dec") /\ getitem gaia_no_ra "ra" = None.
Proof.
  apply (@reject_missing_failure gaia_no_ra gaia_no_ra_left (KeyError "ra")).
  - exact gaia_no_ra_rectangular.
  - vm_compute. reflexivity.
Defined.

(** ** Output file names *)

(** *** Strings *)

Lemma append_inv_head (s a b : string) : s ++ a = s ++ b -> a = b.
Proof.
  induction s as [| x s IH]; simpl; intros H; [exact H |].
  injection H as H. apply IH, H.
Qed.

Lemma append_split (c : ascii) (s1 s2 r1 r2 : string) :
  has_char c s1 = false -> has_char c s2 = false ->
  s1 ++ String c r1 = s2 ++ String c r2 -> s1 = s2 /\ r1 = r2.
Proof.
  revert s2. induction s1 as [| x s1 IH]; intros [| y s2] H1 H2 H;
    simpl in *.
  - injection H as H. split; [reflexivity | exact H].
  - injection H as Hc _. subst y.
    rewrite Ascii.eqb_refl in H2. discriminate H2.
  - injection H as Hc _. subst x.
    rewrite Ascii.eqb_refl in H1. discriminate H1.
  - injection H as Hxy H. subst y.
    apply orb_false_iff in H1. apply orb_false_iff in H2.
    destruct (IH s2 (proj2 H1) (proj2 H2) H) as [-> ->].
    split; reflexivity.
Qed.

(** *** Decimal fields *)

Lemma zeros_string_of_uint (k : nat) (u : uint) :
  zeros k ++ NilEmpty.string_of_uint u
  = NilEmpty.string_of_uint (Nat.iter k D0 u).
Proof. induction k as [| k IH]; simpl; [| rewrite IH]; reflexivity. Qed.

Lemma of_uint_iter_D0 (k : nat) (u : uint) :
  N.of_uint (Nat.iter k D0 u) = N.of_uint u.
Proof. induction k as [| k IH]; simpl; [reflexivity | exact IH]. Qed.

Lemma parse_string_of_uint (u : uint) :
  parse_0d (NilEmpty.string_of_uint u) = Z.of_N (N.of_uint u).
Proof.
  destruct u; simpl; try reflexivity;
    rewrite NilEmpty.usu; reflexivity.
Qed.

Lemma zero_fill_digits (width : nat) (n : N) :
  exists k, zero_fill width (digits n)
            = NilEmpty.string_of_uint (Nat.iter k D0 (N.to_uint n)).
Proof.
  unfold zero_fill, digits.
  exists (width - String.length (NilEmpty.string_of_uint (N.to_uint n))).
  apply zeros_string_of_uint.
Qed.

Lemma parse_zero_fill (width : nat) (n : N) :
  parse_0d (zero_fill width (digits n)) = Z.of_N n.
Proof.
  destruct (zero_fill_digits width n) as [k ->].
  rewrite parse_string_of_uint, of_uint_iter_D0, Unsigned.of_to.
  reflexivity.
Qed.

Lemma parse_format_0d (width : nat) (n : Z) :
  parse_0d (format_0d width n) = n.
Proof.
  unfold format_0d. destruct (Z.ltb_spec n 0) as [Hneg | Hpos].
  - destruct (zero_fill_digits (width - 1) (Z.to_N (- n))) as [k E].
    rewrite E. unfold parse_0d. rewrite Ascii.eqb_refl.
    rewrite NilEmpty.usu, of_uint_iter_D0, Unsigned.of_to. lia.
  - rewrite parse_zero_fill. lia.
Qed.

Lemma format_0d_inj (width : nat) (n m : Z) :
  format_0d width n = format_0d width m -> n = m.
Proof.
  intros H. apply (f_equal parse_0d) in H.
  rewrite !parse_format_0d in H. exact H.
Qed.

Lemma string_of_uint_no_underscore (u : uint) :
  has_char "_" (NilEmpty.string_of_uint u) = false.
Proof. induction u; simpl; try reflexivity; exact IHu. Qed.

Lemma format_0d_no_underscore (width : nat) (n : Z) :
  has_char "_" (format_0d width n) = false.
Proof.
  unfold format_0d. destruct (n <? 0)%Z.
  - destruct (zero_fill_digits (width - 1) (Z.to_N (- n))) as [k ->].
    simpl. apply string_of_uint_no_underscore.
  - destruct (zero_fill_digits width (Z.to_N n)) as [k ->].
    apply string_of_uint_no_underscore.
Qed.

Lemma cal_level_inj (l1 l2 : Z) :
  cal_level l1 ++ ".asdf" = cal_level l2 ++ ".asdf" ->
  cal_level l1 = cal_level l2.
Proof.
  unfold cal_level. destruct (l1 =? 2)%Z, (l2 =? 2)%Z; simpl;
    intros H; try reflexivity; discriminate H.
Qed.

(** Two equal file names of [run_romanisim], field by field. *)
Lemma filename_fields (root : string) (e1 s1 l1 e2 s2 l2 : Z) :
  run_romanisim_filename root e1 s1 l1 = run_romanisim_filename root e2 s2 l2 ->
  e1 = e2 /\ s1 = s2 /\ cal_level l1 = cal_level l2.
Proof.
  unfold run_romanisim_filename. intros H.
  apply append_inv_head in H. simpl in H. injection H as H.
  apply append_split in H; try apply format_0d_no_underscore.
  destruct H as [He H]. simpl in H. injection H as H.
  apply append_split in H; try apply format_0d_no_underscore.
  destruct H as [Hs H]. apply cal_level_inj in H.
  split; [eapply format_0d_inj, He |].
  split; [eapply format_0d_inj, Hs | exact H].
Qed.

(** X8: the file name that [run_romanisim] computes tells its calls apart:
    for one root name, two calls get the same file name only if they have
    the same exposure number and the same detector, and both or neither
    have [level == 2]. *)
Theorem run_romanisim_filename_inj (root : string) (e1 s1 l1 e2 s2 l2 : Z) :
  run_romanisim_filename root e1 s1 l1 = run_romanisim_filename root e2 s2 l2 ->
  e1 = e2 /\ s1 = s2 /\ ((l1 = 2 <-> l2 = 2))%Z.
Proof.
  intros H. apply filename_fields in H. destruct H as (He & Hs & H).
  split; [exact He |]. split; [exact Hs |].
  unfold cal_level in H.
  destruct (Z.eqb_spec l1 2), (Z.eqb_spec l2 2); try discriminate H; tauto.
Qed.

Lemma run_romanisim_filename_inj_witness :
  (4 = 4 /\ 13 = 13 /\ (1 = 2 <-> 3 = 2))%Z.
Proof.
  apply (@run_romanisim_filename_inj default_filename 4 13 1 4 13 3).
  reflexivity.
Defined.

(** The file name of the simulation cell is the one [run_romanisim]
    computes with its default root name and exposure number. *)
Lemma filename_is_default_run (sca level : Z) :
  filename sca level = run_romanisim_filename default_filename 1 sca level.
Proof. reflexivity. Qed.

(** X9: the file name of the simulation cell tells its runs apart: two
    settings of [sca] and [level] give the same file name only if they have
    the same detector and both or neither have [level == 2]; so simulating
    another detector never overwrites an earlier output. *)
Theorem filename_inj (sca1 level1 sca2 level2 : Z) :
  filename sca1 level1 = filename sca2 level2 ->
  sca1 = sca2 /\ (level1 = 2 <-> level2 = 2)%Z.
Proof.
  rewrite (filename_is_default_run sca1 level1),
    (filename_is_default_run sca2 level2).
  intros H.
  apply filename_fields in H. destruct H as (_ & Hs & H).
  split; [exact Hs |].
  unfold cal_level in H.
  destruct (Z.eqb_spec level1 2), (Z.eqb_spec level2 2);
    try discriminate H; tauto.
Qed.

Lemma filename_inj_witness : (13 = 13 /\ (1 = 2 <-> 3 = 2))%Z.
Proof.
  apply (@filename_inj 13 1 13 3). reflexivity.
Defined.

(** ** The tasks of the parallel run *)

Lemma NoDup_map_inj (A B : Type) (f : A -> B) (l : list A) :
  (forall x y, In x l -> In y l -> f x = f y -> x = y) ->
  NoDup l -> NoDup (map f l).
Proof.
  intros Hinj Hl. induction Hl as [| a l Ha Hl IH]; simpl; constructor.
  - intros Hin. apply in_map_iff in Hin. destruct Hin as (b & Hfb & Hb).
    apply Ha. rewrite (Hinj a b); auto using in_eq, in_cons.
  - apply IH. intros x y Hx Hy. apply Hinj; right; assumption.
Qed.

Lemma range_NoDup (n : Z) : NoDup (range n).
Proof.
  unfold range. apply NoDup_map_inj; [| apply seq_NoDup].
  intros x y _ _ H. lia.
Qed.

Lemma range_In (n i : Z) : In i (range n) <-> (0 <= i < n)%Z.
Proof.
  unfold range. rewrite in_map_iff. split.
  - intros (k & <- & Hk). apply in_seq in Hk. lia.
  - intros H. exists (Z.to_nat i). split; [lia |]. apply in_seq. lia.
Qed.

(** X10: the loop submits [n_detectors] tasks (none when [n_detectors] is
    not positive), for the detectors [offset + 1], [offset + 2], ... in
    order, each at the current position of the pointing and with the given
    exposure number; no two of them write the same file. *)
Theorem tasks_distinct_files {siaf : pysiaf.Interface}
    (pointing : PointWFI siaf) (n_detectors offset expnum : Z) :
  let ts := tasks pointing n_detectors offset expnum in
  List.length ts = Z.to_nat n_detectors /\
  map task_sca ts = map (fun i => (i + 1 + offset)%Z) (range n_detectors) /\
  Forall (fun t => (task_ra t, task_dec t) = CurrentPosition pointing
                   /\ task_expnum t = expnum) ts /\
  NoDup (map task_filename ts).
Proof.
  unfold tasks. cbv zeta. repeat split.
  - rewrite length_map. unfold range. rewrite length_map, length_seq.
    reflexivity.
  - rewrite map_map. reflexivity.
  - apply Forall_forall. intros t Hin. apply in_map_iff in Hin.
    destruct Hin as (i & <- & _). split; reflexivity.
  - rewrite map_map. apply NoDup_map_inj; [| apply range_NoDup].
    intros x y _ _ H. unfold task_filename in H. simpl in H.
    apply filename_fields in H. lia.
Qed.

(** X11: every submitted task names a detector from 1 to 18 exactly when
    nothing is submitted or [offset] is not negative and
    [offset + n_detectors] is at most 18. *)
Theorem tasks_detectors_valid {siaf : pysiaf.Interface}
    (pointing : PointWFI siaf) (n_detectors offset expnum : Z) :
  Forall (fun t => (1 <= task_sca t <= 18)%Z)
         (tasks pointing n_detectors offset expnum)
  <-> (n_detectors <= 0 \/ (0 <= offset /\ offset + n_detectors <= 18))%Z.
Proof.
  unfold tasks. rewrite Forall_map. simpl. rewrite Forall_forall. split.
  - intros H. destruct (Z.leb_spec n_detectors 0) as [Hn | Hn]; [left; exact Hn |].
    right.
    pose proof (H 0%Z (proj2 (range_In n_detectors 0) ltac:(lia))) as H0.
    pose proof (H (n_detectors - 1)%Z
                  (proj2 (range_In n_detectors (n_detectors - 1)) ltac:(lia)))
      as H1.
    lia.
  - intros H i Hi. apply range_In in Hi. lia.
Qed.
